(** * hazelArgos: release snapshot cache and platform resolution

  A shallow embedding of the three core modules of the update server:

  - [lib/platform.js]  : the platform identifier normalizer ([Platform]),
  - [lib/aliases.js]   : the alias resolver ([Aliases]),
  - [lib/cache.js]     : the snapshot cache and its refresh protocol
                         ([Cache]).

  JavaScript strings are modelled by [string] (the bytes of their UTF-8
  form: the tests made on them, containment of an ASCII word and the
  search for a dot or a slash, do not depend on the encoding), the value
  [false] returned by the two resolvers by [None], JavaScript objects
  used as ordered dictionaries by association lists in insertion order
  ([JsObj]). *)

From Stdlib Require Import String Ascii List Bool ZArith Lia.
Import ListNotations.

Local Open Scope string_scope.

(** ** JavaScript string primitives *)

Module JsString.

(** [s.startsWith(p)] *)
Fixpoint startsWith (p s : string) : bool :=
  match p, s with
  | EmptyString, _ => true
  | String _ _, EmptyString => false
  | String a p', String b s' => Ascii.eqb a b && startsWith p' s'
  end.

(** [s.includes(p)] *)
Fixpoint includes (p s : string) : bool :=
  startsWith p s ||
  match s with
  | EmptyString => false
  | String _ s' => includes p s'
  end.

(** [s.endsWith(p)] *)
Definition endsWith (p s : string) : bool :=
  (String.length p <=? String.length s)%nat &&
  String.eqb (substring (String.length s - String.length p) (String.length p) s) p.

(** [s.slice(1)] *)
Definition slice1 (s : string) : string :=
  match s with
  | EmptyString => EmptyString
  | String _ s' => s'
  end.

(** Truthiness of a string value: only the empty string is falsy. *)
Definition truthy (s : string) : bool :=
  match s with
  | EmptyString => false
  | String _ _ => true
  end.



End JsString.

(** ** Node's [path.extname] (POSIX flavour)

  [extname] is the backwards scan of Node's [path.posix.extname]: it walks
  the characters from the last index down to 0, skips trailing slashes,
  stops at the first slash that precedes the last path segment, and keeps
  track of the rightmost dot of that segment. *)

Module Path.

Local Open Scope Z_scope.

Record ExtState := mkExtState {
  startDot : Z;
  startPart : Z;
  endIdx : Z;
  matchedSlash : bool;
  preDotState : Z
}.

Definition initState : ExtState := mkExtState (-1) 0 (-1) true 0.

Definition CHAR_FORWARD_SLASH : ascii := "/"%char.
Definition CHAR_DOT : ascii := "."%char.

(** One iteration of the loop body on a character that is not a slash. *)
Definition stepChar (c : ascii) (i : Z) (st : ExtState) : ExtState :=
  let st1 :=
    if endIdx st =? -1
    then mkExtState (startDot st) (startPart st) (i + 1) false (preDotState st)
    else st in
  if Ascii.eqb c CHAR_DOT then
    if startDot st1 =? -1
    then mkExtState i (startPart st1) (endIdx st1) (matchedSlash st1) (preDotState st1)
    else if negb (preDotState st1 =? 1)
         then mkExtState (startDot st1) (startPart st1) (endIdx st1) (matchedSlash st1) 1
         else st1
  else if negb (startDot st1 =? -1)
       then mkExtState (startDot st1) (startPart st1) (endIdx st1) (matchedSlash st1) (-1)
       else st1.

(** [for (let i = path.length - 1; i >= 0; --i)], with [n = i + 1]. *)
Fixpoint extnameLoop (path : list ascii) (n : nat) (st : ExtState) : ExtState :=
  match n with
  | O => st
  | S i =>
      match nth_error path i with
      | None => st
      | Some c =>
          if Ascii.eqb c CHAR_FORWARD_SLASH then
            if negb (matchedSlash st)
            then mkExtState (startDot st) (Z.of_nat i + 1) (endIdx st)
                            (matchedSlash st) (preDotState st)
            else extnameLoop path i st
          else extnameLoop path i (stepChar c (Z.of_nat i) st)
      end
  end.

(** [path.slice(a, b)] for [0 <= a <= b]. *)
Definition sliceZ (path : list ascii) (a b : Z) : list ascii :=
  firstn (Z.to_nat (b - a)) (skipn (Z.to_nat a) path).

Definition extnameChars (path : list ascii) : list ascii :=
  let st := extnameLoop path (List.length path) initState in
  if (startDot st =? -1)
     || (endIdx st =? -1)
     || (preDotState st =? 0)
     || ((preDotState st =? 1)
         && (startDot st =? endIdx st - 1)
         && (startDot st =? startPart st + 1))
  then []
  else sliceZ path (startDot st) (endIdx st).

Definition extname (path : string) : string :=
  string_of_list_ascii (extnameChars (list_ascii_of_string path)).

End Path.

(** ** [lib/platform.js] *)

Module Platform.

Import JsString.

(** [(fileName.includes('arm64') || fileName.includes('aarch64')) ? '_arm64' : ''] *)
Definition archOf (fileName : string) : string :=
  if includes "arm64" fileName || includes "aarch64" fileName
  then "_arm64" else "".

Definition extensionOf (fileName : string) : string :=
  slice1 (Path.extname fileName).

Definition linuxFormats : list string := ["rpm"; "deb"].

Definition list_includes (l : list string) (x : string) : bool :=
  existsb (String.eqb x) l.

(** The exported function; [None] stands for the returned [false]. *)
Definition checkPlatform (fileName : string) : option string :=
  let extension := extensionOf fileName in
  let arch := archOf fileName in
  if String.eqb extension "dmg" then Some ("darwin" ++ arch)
  else if String.eqb extension "AppImage" then Some ("linux" ++ arch)
  else if (includes "mac" fileName || includes "darwin" fileName)
          && String.eqb extension "zip"
  then Some ("darwin" ++ arch)
  else if String.eqb extension "exe" then Some "win32"
  else if list_includes linuxFormats extension then Some (extension ++ arch)
  else None.

(** *** The priority algorithm as the specification words it

    The extension is "the text after the last dot" of the file name. *)

Fixpoint afterLastDot (s : string) : option string :=
  match s with
  | EmptyString => None
  | String c r =>
      match afterLastDot r with
      | Some e => Some e
      | None => if Ascii.eqb c "."%char then Some r else None
      end
  end.

Definition specExtension (fileName : string) : string :=
  match afterLastDot fileName with
  | Some e => e
  | None => ""
  end.

Definition specSuffix (fileName : string) : string :=
  if includes "arm64" fileName then "_arm64"
  else if includes "aarch64" fileName then "_arm64"
  else "".

Definition priorityAlgorithm (ext fileName : string) : option string :=
  let suffix := specSuffix fileName in
  if String.eqb ext "dmg" then Some ("darwin" ++ suffix)
  else if String.eqb ext "AppImage" then Some ("linux" ++ suffix)
  else if String.eqb ext "zip"
          && (includes "mac" fileName || includes "darwin" fileName)
  then Some ("darwin" ++ suffix)
  else if String.eqb ext "exe" then Some "win32"
  else if String.eqb ext "deb" || String.eqb ext "rpm" then Some (ext ++ suffix)
  else None.

Definition specNormalize (fileName : string) : option string :=
  priorityAlgorithm (specExtension fileName) fileName.

(** A file name without directory separator. *)
Definition noSlash (fileName : string) : bool :=
  negb (includes "/" fileName).

(** The only dot of the name is its first character (a "dotfile"). *)
Definition dotLed (fileName : string) : bool :=
  match fileName with
  | String "."%char r =>
      match afterLastDot r with None => true | Some _ => false end
  | _ => false
  end.

End Platform.

(** ** JavaScript objects used as dictionaries

  Own string-keyed properties are enumerated in insertion order, and
  assigning to an existing key keeps its position.  (Integer-like keys,
  which JavaScript enumerates first, never occur: every key used below is
  a platform key or a file name ending in [.yml].) *)

Module JsObj.

Definition t (V : Type) : Type := list (string * V).

Definition empty {V : Type} : t V := [].

(** [obj[k]] on own properties; [None] stands for [undefined]. *)
Fixpoint get {V : Type} (k : string) (o : t V) : option V :=
  match o with
  | [] => None
  | (k', v) :: rest => if String.eqb k k' then Some v else get k rest
  end.

(** [obj[k] = v] *)
Fixpoint set {V : Type} (k : string) (v : V) (o : t V) : t V :=
  match o with
  | [] => [(k, v)]
  | (k', v') :: rest =>
      if String.eqb k k' then (k, v) :: rest else (k', v') :: set k v rest
  end.

(** [Object.keys(obj)] *)
Definition keys {V : Type} (o : t V) : list string := map fst o.

Definition has {V : Type} (k : string) (o : t V) : bool :=
  match get k o with Some _ => true | None => false end.

End JsObj.

(** ** [lib/aliases.js] *)

Module Aliases.

(** The object literal, in declaration order. *)
Definition baseAliases : JsObj.t (list string) :=
  [ ("darwin", ["mac"; "macos"; "osx"; "dmg"]);
    ("win32", ["windows"; "win"; "exe"]);
    ("linux", ["AppImage"; "appimage"]);
    ("deb", ["debian"]);
    ("rpm", ["fedora"]);
    ("exe", ["win32"; "windows"; "win"]) ].

Definition arm64 (s : string) : string := s ++ "_arm64".

(** The load-time loop: [Object.keys(aliases)] is evaluated once, then
    every listed key receives its [_arm64] twin. *)
Definition extendStep (tbl : JsObj.t (list string)) (existingPlatform : string)
  : JsObj.t (list string) :=
  let newPlatform := arm64 existingPlatform in
  match JsObj.get existingPlatform tbl with
  | Some l => JsObj.set newPlatform (map arm64 l) tbl
  | None => tbl
  end.

Definition extend (tbl : JsObj.t (list string)) : JsObj.t (list string) :=
  fold_left extendStep (JsObj.keys tbl) tbl.

Definition aliases : JsObj.t (list string) := extend baseAliases.

(** Properties every plain object inherits from [Object.prototype];
    [aliases[p]] is defined for them although they are not own keys. *)
Definition objectPrototypeProps : list string :=
  [ "constructor"; "__defineGetter__"; "__defineSetter__"; "hasOwnProperty";
    "__lookupGetter__"; "__lookupSetter__"; "isPrototypeOf";
    "propertyIsEnumerable"; "toString"; "valueOf"; "__proto__";
    "toLocaleString" ].

Definition list_includes (l : list string) (x : string) : bool :=
  existsb (String.eqb x) l.

(** [typeof aliases[platform] !== 'undefined'] *)
Definition defined (tbl : JsObj.t (list string)) (platform : string) : bool :=
  JsObj.has platform tbl || list_includes objectPrototypeProps platform.

(** [for (const guess of Object.keys(aliases))] *)
Fixpoint scan (tbl : JsObj.t (list string)) (platform : string) : option string :=
  match tbl with
  | [] => None
  | (guess, list) :: rest =>
      if list_includes list platform then Some guess else scan rest platform
  end.

Definition checkAliasIn (tbl : JsObj.t (list string)) (platform : string)
  : option string :=
  if defined tbl platform then Some platform else scan tbl platform.

(** The exported function; [None] stands for the returned [false]. *)
Definition checkAlias (platform : string) : option string :=
  checkAliasIn aliases platform.

(** The first key, in declaration order, whose list declares the alias. *)
Definition firstOwner (tbl : JsObj.t (list string)) (a : string) : option string :=
  match filter (fun kl => list_includes (snd kl) a) tbl with
  | [] => None
  | (k, _) :: _ => Some k
  end.

(** Whether a token is a key of the derived table. *)
Definition isKey (a : string) : bool := JsObj.has a aliases.

End Aliases.

(** ** [lib/cache.js] *)

Module Cache.

Import JsString.
Local Open Scope Z_scope.
Local Open Scope list_scope.

(** *** Data sent by the release host *)

(** An element of [release.assets], as the release host documents it: an
    object whose [name] is a string.  (On a [null] element, or on a name
    that is not a string, the loop over the assets throws; such listings
    are outside this embedding.) *)
Record RawAsset := mkRawAsset {
  name : string;
  browser_download_url : string;
  url : string;
  content_type : string;
  size : Z
}.

(** An element of the release list, as the release host documents it: an
    object with a string [tag_name].  [draft] and [prerelease] hold the
    truthiness of the fields; [assets] is [None] when the field is missing
    or is not an array.  (A [null] element, on which [data.find] throws,
    and a release without [tag_name] are outside this embedding.) *)
Record Release := mkRelease {
  draft : bool;
  prerelease : bool;
  tag_name : string;
  body : string;
  published_at : string;
  assets : option (list RawAsset)
}.

(** The value [response.json()] resolves to. *)
Inductive ReleaseData :=
| NotAnArray
| ReleaseArray (data : list Release).

(** A response of the release-list endpoint; [json] is [None] when
    [response.json()] rejects. *)
Record Response := mkResponse {
  status : Z;
  json : option ReleaseData
}.

(** *** Manifests *)

(** An element of the [files] list of a parsed manifest.  [e_url] is
    [None] when the field is missing or is not a string. *)
Record ManifestEntry := mkManifestEntry {
  e_url : option string;
  e_sha512 : option string;
  e_blockMapSize : option Z
}.

(** Reading [file.url] throws on a [null] element. *)
Inductive ManifestItem :=
| NullItem
| EntryItem (e : ManifestEntry).

(** What [yaml.load] gives: an exception, a document without a usable
    [files] member, or a document with its [files] list. *)
Inductive YamlResult :=
| YamlThrows
| YamlNoFiles
| YamlFiles (files : list ManifestItem).

Inductive ManifestKind := MacManifest | LinuxManifest | WinManifest.

Definition manifestName (k : ManifestKind) : string :=
  match k with
  | MacManifest => "latest-mac.yml"
  | LinuxManifest => "latest-linux.yml"
  | WinManifest => "latest.yml"
  end.

(** *** The environment of one refresh cycle

    [fetchReleases n] is the outcome of the [n]-th call of
    [fetch(url, { headers })] on the release-list URL ([None]: the call
    rejects); [cacheReleaseList u] is the outcome of the method of that
    name ([None]: it throws); [fetchText u] is [fetch(u)] followed by
    [response.text()]; [dateNow] is the value [Date.now()] has when the
    cycle reads it. *)
Record World := mkWorld {
  fetchReleases : nat -> option Response;
  cacheReleaseList : string -> option string;
  fetchText : string -> option string;
  yamlLoad : string -> YamlResult;
  dateNow : Z
}.

(** The network and parsing work a cycle performs, in order.
    [EvFetchReleases n] is the [n]-th request for the release list,
    [EvCacheReleaseList u] one call of the method [cacheReleaseList] on
    [u] (the method makes its own requests for [u], retried like the
    release list), [EvFetchText u] the request for a manifest,
    [EvYamlLoad k] one call of [yaml.load]. *)
Inductive Event :=
| EvFetchReleases (attempt : nat)
| EvCacheReleaseList (u : string)
| EvFetchText (u : string)
| EvYamlLoad (k : ManifestKind).

(** *** The snapshot *)

(** [Math.round(size / 1000000 * 10) / 10], kept symbolic. *)
Inductive Megabytes := RoundedMB (bytes : Z).

Record PlatformAsset := mkPlatformAsset {
  pa_name : string;
  pa_api_url : string;
  pa_url : string;
  pa_content_type : string;
  pa_size : Megabytes;
  pa_sha512 : option string;
  pa_blockMapSize : option Z
}.

Record Files := mkFiles {
  RELEASES : option string;
  yamlFiles : option (JsObj.t string)
}.

(** [this.latest]; a field is [None] while the property is unset. *)
Record Snapshot := mkSnapshot {
  version : option string;
  notes : option string;
  pub_date : option string;
  platforms : option (JsObj.t PlatformAsset);
  files : option Files
}.

Record Config := mkConfig {
  pre : option string;
  interval : option Z
}.

(** The two fields of the [Cache] instance. *)
Record CacheState := mkCacheState {
  latest : Snapshot;
  lastUpdate : option Z
}.

(** The state the constructor leaves: [latest = {}], [lastUpdate = null]. *)
Definition emptySnapshot : Snapshot := mkSnapshot None None None None None.
Definition initialState : CacheState := mkCacheState emptySnapshot None.

(** How an [async] method ends. *)
Inductive Completion := Returned | Thrown.

(** *** [async-retry]

    [retry(op, { retries })] runs [op]; when it throws and retries are
    left it runs it again; the last error is rethrown. *)
Fixpoint retry {A : Type} (op : nat -> option A) (attempt retries : nat)
  : option A * list Event :=
  match op attempt with
  | Some r => (Some r, [EvFetchReleases attempt])
  | None =>
      match retries with
      | O => (None, [EvFetchReleases attempt])
      | S retries' =>
          let '(r, log) := retry op (S attempt) retries' in
          (r, EvFetchReleases attempt :: log)
      end
  end.

(** The function handed to [retry] in [refreshCache]. *)
Definition fetchReleaseList (w : World) (attempt : nat) : option Response :=
  match fetchReleases w attempt with
  | None => None
  | Some response =>
      if negb (status response =? 200) then None else Some response
  end.

(** [Boolean(pre)] *)
Definition booleanOf (v : option string) : bool :=
  match v with
  | None => false
  | Some s => truthy s
  end.

(** [data.find(item => !item.draft && Boolean(pre) === Boolean(item.prerelease))] *)
Definition selectRelease (cfg : Config) (data : list Release) : option Release :=
  find (fun item =>
          let isPre := Bool.eqb (booleanOf (pre cfg)) (prerelease item) in
          negb (draft item) && isPre) data.

(** *** The asset loop *)

Record LoopState := mkLoopState {
  ls_latest : Snapshot;
  ls_yaml : JsObj.t string;
  ls_log : list Event
}.

Definition setPlatforms (p : JsObj.t PlatformAsset) (s : Snapshot) : Snapshot :=
  mkSnapshot (version s) (notes s) (pub_date s) (Some p) (files s).

Definition setFiles (f : Files) (s : Snapshot) : Snapshot :=
  mkSnapshot (version s) (notes s) (pub_date s) (platforms s) (Some f).

(** [if (!this.latest.files) { this.latest.files = {} }] *)
Definition ensureFiles (s : Snapshot) : Files :=
  match files s with
  | Some f => f
  | None => mkFiles None None
  end.

Definition platformsOf (s : Snapshot) : JsObj.t PlatformAsset :=
  match platforms s with
  | Some p => p
  | None => JsObj.empty
  end.

Definition newPlatformAsset (asset : RawAsset) : PlatformAsset :=
  mkPlatformAsset (name asset) (url asset) (browser_download_url asset)
                  (content_type asset) (RoundedMB (size asset)) None None.

(** The body of [for (const asset of release.assets)]. *)
Definition processAsset (w : World) (ls : LoopState) (asset : RawAsset) : LoopState :=
  if String.eqb (name asset) "RELEASES" then
    let f := ensureFiles (ls_latest ls) in
    let log := ls_log ls ++ [EvCacheReleaseList (browser_download_url asset)] in
    match cacheReleaseList w (browser_download_url asset) with
    | Some content =>
        mkLoopState (setFiles (mkFiles (Some content) (yamlFiles f)) (ls_latest ls))
                    (ls_yaml ls) log
    | None =>
        mkLoopState (setFiles f (ls_latest ls)) (ls_yaml ls) log
    end
  else if endsWith ".yml" (name asset) then
    let log := ls_log ls ++ [EvFetchText (browser_download_url asset)] in
    match fetchText w (browser_download_url asset) with
    | Some yamlContent =>
        mkLoopState (ls_latest ls) (JsObj.set (name asset) yamlContent (ls_yaml ls)) log
    | None => mkLoopState (ls_latest ls) (ls_yaml ls) log
    end
  else
    match Platform.checkPlatform (name asset) with
    | None => ls
    | Some platform =>
        mkLoopState
          (setPlatforms (JsObj.set platform (newPlatformAsset asset)
                                   (platformsOf (ls_latest ls)))
                        (ls_latest ls))
          (ls_yaml ls) (ls_log ls)
    end.

Definition processAssets (w : World) (ls : LoopState) (l : list RawAsset) : LoopState :=
  fold_left (processAsset w) l ls.

(** *** Attaching checksums *)

Definition attachChecksum (k : ManifestKind) (file : ManifestEntry)
           (data : PlatformAsset) : PlatformAsset :=
  mkPlatformAsset (pa_name data) (pa_api_url data) (pa_url data)
                  (pa_content_type data) (pa_size data)
                  (e_sha512 file)
                  (match k with
                   | LinuxManifest => e_blockMapSize file
                   | _ => pa_blockMapSize data
                   end).

(** [for (const [platform, data] of Object.entries(platforms))] with its
    [break] on the first asset of that name. *)
Fixpoint attachTo (k : ManifestKind) (file : ManifestEntry) (fileName : string)
         (p : JsObj.t PlatformAsset) : JsObj.t PlatformAsset :=
  match p with
  | [] => []
  | (platform, data) :: rest =>
      if String.eqb (pa_name data) fileName
      then (platform, attachChecksum k file data) :: rest
      else (platform, data) :: attachTo k file fileName rest
  end.

(** The body of [for (const file of manifest.files)] on a proper entry. *)
Definition applyEntry (k : ManifestKind) (file : ManifestEntry)
           (p : JsObj.t PlatformAsset) : JsObj.t PlatformAsset :=
  match e_url file with
  | Some fileName => if truthy fileName then attachTo k file fileName p else p
  | None => p
  end.

(** The loop over [manifest.files]; a [null] element throws, which the
    surrounding [try] catches: the earlier entries stay applied. *)
Fixpoint applyItems (k : ManifestKind) (items : list ManifestItem)
         (p : JsObj.t PlatformAsset) : JsObj.t PlatformAsset :=
  match items with
  | [] => p
  | NullItem :: _ => p
  | EntryItem file :: rest => applyItems k rest (applyEntry k file p)
  end.

(** One of the three [if (yamlFiles[...]) { try { ... } catch ... }] blocks. *)
Definition applyManifest (w : World) (k : ManifestKind) (yamls : JsObj.t string)
           (pl : JsObj.t PlatformAsset * list Event)
  : JsObj.t PlatformAsset * list Event :=
  let '(p, log) := pl in
  match JsObj.get (manifestName k) yamls with
  | None => (p, log)
  | Some content =>
      if truthy content then
        match yamlLoad w content with
        | YamlFiles items => (applyItems k items p, log ++ [EvYamlLoad k])
        | _ => (p, log ++ [EvYamlLoad k])
        end
      else (p, log)
  end.

(** [if (Object.keys(yamlFiles).length > 0) { ... }] *)
Definition applyManifests (w : World) (ls : LoopState) : Snapshot * list Event :=
  match ls_yaml ls with
  | [] => (ls_latest ls, ls_log ls)
  | _ :: _ =>
      let f := ensureFiles (ls_latest ls) in
      let s := setFiles (mkFiles (RELEASES f) (Some (ls_yaml ls))) (ls_latest ls) in
      let pl0 := (platformsOf s, ls_log ls) in
      let pl1 := applyManifest w MacManifest (ls_yaml ls) pl0 in
      let pl2 := applyManifest w LinuxManifest (ls_yaml ls) pl1 in
      let pl3 := applyManifest w WinManifest (ls_yaml ls) pl2 in
      (setPlatforms (fst pl3) s, snd pl3)
  end.

(** *** [refreshCache] *)

(** The part of the method that follows the version test. *)
Definition cacheRelease (w : World) (release : Release) (l : list RawAsset)
           (log : list Event) (st : CacheState) : Completion * CacheState * list Event :=
  let s0 := mkSnapshot (Some (tag_name release)) (Some (body release))
                       (Some (published_at release)) (Some JsObj.empty)
                       (files (latest st)) in
  let ls := processAssets w (mkLoopState s0 JsObj.empty log) l in
  let '(s, log') := applyManifests w ls in
  (Returned, mkCacheState s (Some (dateNow w)), log').

Definition optionStringEqb (a : option string) (b : string) : bool :=
  match a with
  | Some a' => String.eqb a' b
  | None => false
  end.

Definition refreshCache (w : World) (cfg : Config) (st : CacheState)
  : Completion * CacheState * list Event :=
  match retry (fetchReleaseList w) 0 3 with
  | (None, log) => (Thrown, st, log)
  | (Some response, log) =>
      match json response with
      | None => (Thrown, st, log)
      | Some NotAnArray => (Returned, st, log)
      | Some (ReleaseArray []) => (Returned, st, log)
      | Some (ReleaseArray data) =>
          match selectRelease cfg data with
          | None => (Returned, st, log)
          | Some release =>
              match assets release with
              | None => (Returned, st, log)
              | Some l =>
                  if optionStringEqb (version (latest st)) (tag_name release)
                  then (Returned, mkCacheState (latest st) (Some (dateNow w)), log)
                  else cacheRelease w release l log st
              end
          end
      end
  end.

(** *** [isOutdated] and [loadCache] *)

(** Truthiness of [lastUpdate]: [null] and [0] are falsy. *)
Definition truthyTime (t : option Z) : bool :=
  match t with
  | None => false
  | Some v => negb (v =? 0)
  end.

(** [ms(`${interval}m`)] with the default of 15 minutes. *)
Definition intervalMs (cfg : Config) : Z :=
  match interval cfg with
  | Some m => m * 60000
  | None => 15 * 60000
  end.

(** [lastUpdate && Date.now() - lastUpdate > ms(...)] *)
Definition isOutdated (now : Z) (cfg : Config) (st : CacheState) : bool :=
  truthyTime (lastUpdate st) &&
  match lastUpdate st with
  | Some t => intervalMs cfg <? now - t
  | None => false
  end.

(** [loadCache]; [now] is [Date.now()] as [isOutdated] reads it.  The
    resolved value is a copy of the snapshot object, which [refreshCache]
    updates in place ([this.latest] is assigned by the constructor only);
    [None] stands for a rejected promise. *)
Definition loadCache (w : World) (now : Z) (cfg : Config) (st : CacheState)
  : option Snapshot * CacheState * list Event :=
  if negb (truthyTime (lastUpdate st)) || isOutdated now cfg st then
    match refreshCache w cfg st with
    | (Thrown, st', log) => (None, st', log)
    | (Returned, st', log) => (Some (latest st'), st', log)
    end
  else (Some (latest st), st, []).

End Cache.

(** ** Vocabulary of the statements

  Auxiliary notions in which the properties below are phrased. *)

Module PathSpec.

Import Path.
Local Open Scope Z_scope.

(** Index of the last dot of a character list. *)
Fixpoint lastDot (l : list ascii) : option nat :=
  match l with
  | [] => None
  | c :: r =>
      match lastDot r with
      | Some k => Some (S k)
      | None => if Ascii.eqb c CHAR_DOT then Some O else None
      end
  end.

(** The loop state once the slash-free segment [suf], which starts at
    index [off] and runs to the end of the path, has been scanned. *)
Definition stateAfter (suf : list ascii) (off : Z) : ExtState :=
  match suf with
  | [] => initState
  | c :: _ =>
      mkExtState
        (match lastDot suf with
         | None => -1
         | Some k => off + Z.of_nat k
         end)
        0
        (off + Z.of_nat (List.length suf))
        false
        (match lastDot suf with
         | None => 0
         | Some O => 0
         | Some (S _) => if Ascii.eqb c CHAR_DOT then 1 else -1
         end)
  end.

Definition slashFree (l : list ascii) : Prop :=
  Forall (fun c => Ascii.eqb c CHAR_FORWARD_SLASH = false) l.

End PathSpec.

Module CacheSpec.

Import Cache.
Local Open Scope Z_scope.

(** The [n]-th attempt on the release list fails: the transport rejects
    or the status is not 200. *)
Definition attemptFails (w : World) (n : nat) : Prop :=
  match fetchReleases w n with
  | None => True
  | Some response => status response <> 200
  end.

(** What the retried fetch of the release list delivers. *)
Definition fetched (w : World) : option Response :=
  fst (retry (fetchReleaseList w) 0 3).

Definition fetchLog (w : World) : list Event :=
  snd (retry (fetchReleaseList w) 0 3).

Definition isFetchReleases (e : Event) : bool :=
  match e with
  | EvFetchReleases _ => true
  | _ => false
  end.

(** [latest.files && latest.files.RELEASES], as the routes read it. *)
Definition releasesOf (s : Snapshot) : option string :=
  match files s with
  | Some f => RELEASES f
  | None => None
  end.

(** [latest.files && latest.files.yamlFiles] *)
Definition yamlFilesOf (s : Snapshot) : option (JsObj.t string) :=
  match files s with
  | Some f => yamlFiles f
  | None => None
  end.

(** A platform map as the asset loop builds it: no key twice, and every
    asset filed under the key the normalizer gives its name. *)
Definition wellKeyed (p : JsObj.t PlatformAsset) : Prop :=
  NoDup (JsObj.keys p) /\
  forall k a, In (k, a) p -> Platform.checkPlatform (pa_name a) = Some k.

(** The entries the loop over [manifest.files] reaches: those before the
    first [null] element, on which it throws. *)
Fixpoint reachedEntries (items : list ManifestItem) : list ManifestEntry :=
  match items with
  | [] => []
  | NullItem :: _ => []
  | EntryItem e :: rest => e :: reachedEntries rest
  end.

(** The entry refers to the file of that name. *)
Definition namesFile (f : string) (e : ManifestEntry) : bool :=
  match e_url e with
  | Some u => String.eqb u f
  | None => false
  end.

(** The last of the entries that refers to the file. *)
Definition lastEntryFor (f : string) (entries : list ManifestEntry)
  : option ManifestEntry :=
  find (namesFile f) (rev entries).

(** The file list one manifest block works on: the one [yaml.load] gives
    for the text held under the name of the manifest, none when the text
    is missing or empty or when the document has no file list. *)
Definition manifestItems (w : World) (yamls : JsObj.t string) (k : ManifestKind)
  : list ManifestItem :=
  match JsObj.get (manifestName k) yamls with
  | Some content =>
      if JsString.truthy content then
        match yamlLoad w content with
        | YamlFiles items => items
        | _ => []
        end
      else []
  | None => []
  end.

(** The state in which the loop over the assets of the release ends. *)
Definition assetLoop (w : World) (release : Release) (l : list RawAsset)
           (st : CacheState) : LoopState :=
  processAssets w
    (mkLoopState
       (mkSnapshot (Some (tag_name release)) (Some (body release))
                   (Some (published_at release)) (Some JsObj.empty)
                   (files (latest st)))
       JsObj.empty (fetchLog w))
    l.

(** The asset once the entries have been applied in order: it carries the
    checksum fields of the last entry that refers to its file. *)
Definition decorated (k : ManifestKind) (entries : list ManifestEntry)
           (a : PlatformAsset) : PlatformAsset :=
  match lastEntryFor (pa_name a) entries with
  | Some e => attachChecksum k e a
  | None => a
  end.

(** The three ways a fetched release list gives nothing to cache. *)
Definition nothingToCache (cfg : Config) (d : ReleaseData) : Prop :=
  match d with
  | NotAnArray => True
  | ReleaseArray data =>
      data = []
      \/ (forall item, In item data ->
            draft item = true \/ prerelease item <> booleanOf (pre cfg))
      \/ (exists release,
            selectRelease cfg data = Some release /\ assets release = None)
  end.

(** [s] agrees with [s0] on everything the selected release determines:
    version, notes, publication date and platform map are equal, and
    whatever [s0] holds under [files] is held by [s] as well. *)
Definition agreesWith (s s0 : Snapshot) : Prop :=
  version s = version s0
  /\ notes s = notes s0
  /\ pub_date s = pub_date s0
  /\ platforms s = platforms s0
  /\ (forall c, releasesOf s0 = Some c -> releasesOf s = Some c)
  /\ (forall y, yamlFilesOf s0 = Some y -> yamlFilesOf s = Some y).

(** The fields of a platform asset that no manifest may touch. *)
Definition frameOf (a : PlatformAsset)
  : string * string * string * string * Megabytes :=
  (pa_name a, pa_api_url a, pa_url a, pa_content_type a, pa_size a).

Definition frameOfMap (p : JsObj.t PlatformAsset)
  : list (string * (string * string * string * string * Megabytes)) :=
  map (fun ka => (fst ka, frameOf (snd ka))) p.

(** The two runs of the asset loop agree. *)
Definition loopAgrees (ls ls0 : LoopState) : Prop :=
  agreesWith (ls_latest ls) (ls_latest ls0)
  /\ ls_yaml ls = ls_yaml ls0
  /\ ls_log ls = ls_log ls0.

(** The state a call leaves behind. *)
Definition stateOf (r : Completion * CacheState * list Event) : CacheState :=
  snd (fst r).

Definition completionOf (r : Completion * CacheState * list Event) : Completion :=
  fst (fst r).

End CacheSpec.

(** ** Concrete release hosts

  Two successive states of a release host, used to run the cache on
  explicit inputs: first only [v1.0.0] is published, with an installer
  list and a disk image; later [v2.0.0] is published, with a disk image
  and a macOS manifest but no installer list. *)

Module Scenario.

Import Cache.
Local Open Scope Z_scope.

Definition cfg : Config := mkConfig None None.

Definition releasesAsset : RawAsset :=
  mkRawAsset "RELEASES" "https://dl.example/v1/RELEASES"
             "https://api.example/assets/1" "application/octet-stream" 80.

Definition dmg1 : RawAsset :=
  mkRawAsset "App-1.0.0.dmg" "https://dl.example/v1/App-1.0.0.dmg"
             "https://api.example/assets/2" "application/x-apple-diskimage" 52000000.

Definition dmg2 : RawAsset :=
  mkRawAsset "App-2.0.0.dmg" "https://dl.example/v2/App-2.0.0.dmg"
             "https://api.example/assets/3" "application/x-apple-diskimage" 53000000.

Definition macYml : RawAsset :=
  mkRawAsset "latest-mac.yml" "https://dl.example/v2/latest-mac.yml"
             "https://api.example/assets/4" "text/yaml" 300.

Definition release1 : Release :=
  mkRelease false false "v1.0.0" "first" "2024-01-01T00:00:00Z"
            (Some [releasesAsset; dmg1]).

Definition release2 : Release :=
  mkRelease false false "v2.0.0" "second" "2024-02-01T00:00:00Z"
            (Some [dmg2; macYml]).

Definition draft3 : Release :=
  mkRelease true false "v3.0.0" "draft" "2024-03-01T00:00:00Z" (Some []).

Definition macEntry : ManifestEntry :=
  mkManifestEntry (Some "App-2.0.0.dmg") (Some "c2hhNTEyLW9mLXYy") (Some 4096).

Definition hostWith (data : ReleaseData) (now : Z) : World :=
  mkWorld (fun _ => Some (mkResponse 200 (Some data)))
          (fun _ => Some "A1B2 https://dl.example/v1/App-1.0.0-full.nupkg 80")
          (fun _ => Some "files: [...]")
          (fun _ => YamlFiles [EntryItem macEntry])
          now.

Definition host1 : World := hostWith (ReleaseArray [release1]) 1000.
Definition host2 : World := hostWith (ReleaseArray [release2; release1]) 2000000.
Definition hostDraftOnly : World := hostWith (ReleaseArray [draft3]) 3000000.

(** A host that answers 503 to every request. *)
Definition hostDown : World :=
  mkWorld (fun _ => Some (mkResponse 503 None))
          (fun _ => None) (fun _ => None) (fun _ => YamlThrows) 2000000.

(** The cache after its first refresh against [host1]. *)
Definition state1 : CacheState :=
  CacheSpec.stateOf (refreshCache host1 cfg initialState).

(** The cache after a further refresh against [host2]. *)
Definition state2 : CacheState :=
  CacheSpec.stateOf (refreshCache host2 cfg state1).

Definition appImage2 : RawAsset :=
  mkRawAsset "App-2.0.0.AppImage" "https://dl.example/v2/App-2.0.0.AppImage"
             "https://api.example/assets/5" "application/octet-stream" 61000000.

(** The platform map the asset loop builds from [dmg2] and [appImage2]. *)
Definition platforms2 : JsObj.t PlatformAsset :=
  JsObj.set "linux" (newPlatformAsset appImage2)
            (JsObj.set "darwin" (newPlatformAsset dmg2) JsObj.empty).

(** A release that lists two disk images. *)
Definition release4 : Release :=
  mkRelease false false "v4.0.0" "fourth" "2024-04-01T00:00:00Z"
            (Some [dmg1; macYml; dmg2]).

Definition host4 : World := hostWith (ReleaseArray [release4]) 4000000.

Definition otherEntry : ManifestEntry :=
  mkManifestEntry (Some "App-2.0.0-setup.exe") (Some "d2luLXNoYTUxMg==") None.

Definition linuxEntry : ManifestEntry :=
  mkManifestEntry (Some "App-2.0.0.AppImage") (Some "bGludXgtc2hhNTEy") (Some 65536).

(** A host whose answer to the release-list request is not JSON. *)
Definition hostUnparsable : World :=
  mkWorld (fun _ => Some (mkResponse 200 None))
          (fun _ => None) (fun _ => None) (fun _ => YamlThrows) 5000000.

(** The release [v2.0.0] listed without an assets array. *)
Definition release2NoAssets : Release :=
  mkRelease false false "v2.0.0" "second" "2024-02-01T00:00:00Z" None.

Definition hostNoAssets : World := hostWith (ReleaseArray [release2NoAssets]) 5000000.

Definition linuxYml : RawAsset :=
  mkRawAsset "latest-linux.yml" "https://dl.example/v5/latest-linux.yml"
             "https://api.example/assets/6" "text/yaml" 300.

(** A release whose Linux manifest has a [null] element ahead of the
    entry for the portable image. *)
Definition release5 : Release :=
  mkRelease false false "v5.0.0" "fifth" "2024-05-01T00:00:00Z"
            (Some [appImage2; linuxYml]).

Definition host5 : World :=
  mkWorld (fun _ => Some (mkResponse 200 (Some (ReleaseArray [release5]))))
          (fun _ => None)
          (fun _ => Some "files: [~, {url: App-2.0.0.AppImage}]")
          (fun _ => YamlFiles [NullItem; EntryItem linuxEntry])
          5000000.

(** A host whose Linux manifest lists the portable image, then a [null]
    element, then a file that is no asset of the release. *)
Definition hostLinuxManifest : World :=
  mkWorld (fun _ => Some (mkResponse 200 (Some (ReleaseArray [release5]))))
          (fun _ => None)
          (fun _ => Some "files: [{url: App-2.0.0.AppImage}, ~, {url: App-2.0.0-setup.exe}]")
          (fun _ => YamlFiles [EntryItem linuxEntry; NullItem; EntryItem otherEntry])
          5000000.

Definition heldAside : JsObj.t string :=
  [("latest-linux.yml", "files: [{url: App-2.0.0.AppImage}, ~, {url: App-2.0.0-setup.exe}]")].

End Scenario.

(** ** [lib/routes.js]: the handlers that read the snapshot

    A handler is run on the state of the cache and on the environment of
    one refresh cycle; it gives its reply, the state it leaves and the
    network work it caused.  What the request carries is reduced to what
    the handler reads: the two flags of the parsed user agent, the
    truthiness of the [update] query parameter, the route parameters. *)

Module Routes.

Import JsString Cache.
Local Open Scope Z_scope.

(** [config.token] and [config.url] *)
Record RouteConfig := mkRouteConfig {
  token : option string;
  baseUrl : option string
}.

(** [token && typeof token === 'string' && token.length > 0] *)
Definition shouldProxyPrivateDownload (rc : RouteConfig) : bool :=
  match token rc with
  | Some t => truthy t
  | None => false
  end.

(** The value of [platforms[platform]]: an asset of the map, a member
    inherited from [Object.prototype] (truthy, without [url] or [api_url]),
    or [undefined]. *)
Inductive Lookup :=
| Found (a : PlatformAsset)
| Inherited
| Missing.

Definition lookupPlatform (p : JsObj.t PlatformAsset) (platform : string) : Lookup :=
  match JsObj.get platform p with
  | Some a => Found a
  | None =>
      if Aliases.list_includes Aliases.objectPrototypeProps platform
      then Inherited else Missing
  end.

(** What a handler does with the response.  [Redirect] is
    [res.writeHead(302, { Location })] followed by [res.end()];
    [ProxyPrivateDownload] is the call of the helper of that name;
    [EndWith] is [res.statusCode = status; res.end()]; [Rejects] is a
    handler whose promise is rejected. *)
Inductive Reply :=
| SendText (status : Z) (text : string)
| SendError (status : Z) (error message : string)
| SendUpdate (name notes pub_date location : option string)
| Redirect (location : string)
| ProxyPrivateDownload (asset : PlatformAsset)
| EndWith (status : Z)
| Rejects.

(** The common tail of the two download handlers once the platform entry
    is known to be truthy.  An inherited member has neither [api_url] nor
    [url]: the helper throws on [rawUrl.replace], and [res.writeHead]
    throws on the [undefined] location; either way the handler rejects. *)
Definition deliver (rc : RouteConfig) (entry : Lookup) (notFound : string) : Reply :=
  match entry with
  | Missing => SendText 404 notFound
  | Found a =>
      if shouldProxyPrivateDownload rc
      then ProxyPrivateDownload a
      else Redirect (pa_url a)
  | Inherited => Rejects
  end.

(** *** [exports.download] *)

Record Agent := mkAgent {
  isMac : bool;
  isWindows : bool
}.

Definition agentPlatform (agent : Agent) (isUpdate : bool) : option string :=
  if isMac agent && isUpdate then Some "darwin"
  else if isMac agent && negb isUpdate then Some "dmg"
  else if isWindows agent then Some "exe"
  else None.

Definition download (w : World) (now : Z) (cfg : Config) (rc : RouteConfig)
           (agent : Agent) (isUpdate : bool) (st : CacheState)
  : Reply * CacheState * list Event :=
  let platform := agentPlatform agent isUpdate in
  match loadCache w now cfg st with
  | (None, st', log) => (Rejects, st', log)
  | (Some loaded, st', log) =>
      let notFound := "No download available for your platform!"%string in
      let reply :=
        match platform, platforms loaded with
        | Some pf, Some p => deliver rc (lookupPlatform p pf) notFound
        | _, _ => SendText 404 notFound
        end in
      (reply, st', log)
  end.

(** *** [exports.downloadPlatform] *)

(** The two rewritings of [req.params.platform]. *)
Definition rewriteMac (isUpdate : bool) (platform : string) : string :=
  let p1 :=
    if String.eqb platform "mac" && negb isUpdate then "dmg"%string else platform in
  if String.eqb p1 "mac_arm64" && negb isUpdate then "dmg_arm64"%string else p1.

(** [!platform] on the result of [checkAlias] *)
Definition falsyAlias (r : option string) : bool :=
  match r with
  | Some s => negb (truthy s)
  | None => true
  end.

Definition downloadPlatform (w : World) (now : Z) (cfg : Config) (rc : RouteConfig)
           (param : string) (isUpdate : bool) (st : CacheState)
  : Reply * CacheState * list Event :=
  let platform0 := rewriteMac isUpdate param in
  match loadCache w now cfg st with
  | (None, st', log) => (Rejects, st', log)
  | (Some loaded, st', log) =>
      let resolved := Aliases.checkAlias platform0 in
      let reply :=
        if falsyAlias resolved then SendText 500 "The specified platform is not valid"
        else
          let notFound := "No download available for your platform"%string in
          match resolved, platforms loaded with
          | Some pf, Some p => deliver rc (lookupPlatform p pf) notFound
          | _, _ => SendText 404 notFound
          end in
      (reply, st', log)
  end.

(** *** [exports.update]

    [semver] is taken as given: [valid v] is the truthiness of
    [valid(v)], and [compare a b] the value of [compare(a, b)], [None]
    when it throws. *)

Section Update.

Variable valid : string -> bool.
Variable compare : option string -> string -> option Z.

Definition updateLocation (rc : RouteConfig) (platformName : string) (entry : Lookup)
  : option string :=
  if shouldProxyPrivateDownload rc then
    Some ((match baseUrl rc with Some u => u | None => "undefined" end)
          ++ "/download/" ++ platformName ++ "?update=true")%string
  else
    match entry with
    | Found a => Some (pa_url a)
    | _ => None
    end.

Definition update (w : World) (now : Z) (cfg : Config) (rc : RouteConfig)
           (platformName version : string) (st : CacheState)
  : Reply * CacheState * list Event :=
  if negb (valid version) then
    (SendError 500 "version_invalid"
               "The specified version is not SemVer-compatible", st, [])
  else
    let resolved := Aliases.checkAlias platformName in
    if falsyAlias resolved then
      (SendError 500 "invalid_platform" "The specified platform is not valid", st, [])
    else
      match loadCache w now cfg st with
      | (None, st', log) => (Rejects, st', log)
      | (Some loaded, st', log) =>
          let entry :=
            match resolved, platforms loaded with
            | Some pf, Some p => lookupPlatform p pf
            | _, _ => Missing
            end in
          let reply :=
            match entry with
            | Missing => EndWith 204
            | _ =>
                match compare (Cache.version loaded) version with
                | None => Rejects
                | Some c =>
                    if negb (c =? 0)
                    then SendUpdate (Cache.version loaded) (notes loaded)
                                    (pub_date loaded)
                                    (updateLocation rc platformName entry)
                    else EndWith 204
                end
            end in
          (reply, st', log)
      end.

End Update.

End Routes.

(** ** Vocabulary of the further properties *)

Module MoreSpec.

Import Cache CacheSpec.
Local Open Scope Z_scope.

(** The keys the normalizer can return. *)
Definition producedKeys : list string :=
  [ "darwin"; "darwin_arm64"; "linux"; "linux_arm64"; "win32";
    "deb"; "deb_arm64"; "rpm"; "rpm_arm64" ]%string.



(** An asset that reaches the normalizer: neither the installer list nor
    a manifest. *)
Definition isDownload (a : RawAsset) : bool :=
  negb (String.eqb (name a) "RELEASES") && negb (JsString.endsWith ".yml" (name a)).

Definition filedUnder (k : string) (a : RawAsset) : bool :=
  isDownload a &&
  match Platform.checkPlatform (name a) with
  | Some k' => String.eqb k' k
  | None => false
  end.

(** The last asset of the listing that is filed under [k]. *)
Definition lastFor (k : string) (l : list RawAsset) : option RawAsset :=
  find (filedUnder k) (rev l).

Definition isSome {A : Type} (o : option A) : bool :=
  match o with Some _ => true | None => false end.

(** An installer list whose processing succeeds in the given environment. *)
Definition releasesStored (w : World) (a : RawAsset) : bool :=
  String.eqb (name a) "RELEASES"
  && isSome (cacheReleaseList w (browser_download_url a)).

Definition lastReleases (w : World) (l : list RawAsset) : option RawAsset :=
  find (releasesStored w) (rev l).

(** A manifest of the given name whose text is fetched. *)
Definition yamlStored (w : World) (n : string) (a : RawAsset) : bool :=
  negb (String.eqb (name a) "RELEASES")
  && JsString.endsWith ".yml" (name a)
  && String.eqb (name a) n
  && isSome (fetchText w (browser_download_url a)).

Definition lastYaml (w : World) (n : string) (l : list RawAsset) : option RawAsset :=
  find (yamlStored w n) (rev l).

(** The proper entries of a file list. *)
Fixpoint entriesOfItems (items : list ManifestItem) : list ManifestEntry :=
  match items with
  | [] => []
  | NullItem :: rest => entriesOfItems rest
  | EntryItem e :: rest => e :: entriesOfItems rest
  end.

(** The entries of the manifest of one kind, as parsed from the retained
    texts; none when the text is missing, empty or not parsed. *)
Definition manifestEntries (w : World) (yamls : JsObj.t string) (k : ManifestKind)
  : list ManifestEntry :=
  match JsObj.get (manifestName k) yamls with
  | Some content =>
      if JsString.truthy content then
        match yamlLoad w content with
        | YamlFiles items => entriesOfItems items
        | _ => []
        end
      else []
  | None => []
  end.

(** Every checksum and every block-map size of the map is the one of a
    manifest entry that names the file of the asset carrying it. *)
Definition sourced (w : World) (yamls : JsObj.t string) (p : JsObj.t PlatformAsset)
  : Prop :=
  forall key a, In (key, a) p ->
    (forall s, pa_sha512 a = Some s ->
       exists kind e, In e (manifestEntries w yamls kind)
                      /\ e_url e = Some (pa_name a) /\ e_sha512 e = Some s)
    /\ (forall b, pa_blockMapSize a = Some b ->
          exists e, In e (manifestEntries w yamls LinuxManifest)
                    /\ e_url e = Some (pa_name a) /\ e_blockMapSize e = Some b).

(** A map without any checksum yet. *)
Definition unchecked (p : JsObj.t PlatformAsset) : Prop :=
  forall key a, In (key, a) p -> pa_sha512 a = None /\ pa_blockMapSize a = None.

(** The request one asset of the listing causes: none for a download. *)
Definition assetEvents (a : RawAsset) : list Event :=
  if String.eqb (name a) "RELEASES" then [EvCacheReleaseList (browser_download_url a)]
  else if JsString.endsWith ".yml" (name a) then [EvFetchText (browser_download_url a)]
  else [].

Definition isYamlLoad (e : Event) : bool :=
  match e with
  | EvYamlLoad _ => true
  | _ => false
  end.

(** The states a cache instance can be in: the one the constructor leaves,
    and the ones refreshes lead to, whatever the release host answers. *)
Inductive reachable (cfg : Config) : CacheState -> Prop :=
| reach_initial : reachable cfg initialState
| reach_refresh (w : World) (st : CacheState) :
    reachable cfg st -> reachable cfg (stateOf (refreshCache w cfg st)).

(** The invariant of the cache state. *)
Definition settled (st : CacheState) : Prop :=
  wellKeyed (platformsOf (latest st))
  /\ (version (latest st) <> None -> platforms (latest st) <> None).

(** The test [!lastUpdate || isOutdated()] of [loadCache]. *)
Definition needsRefresh (now : Z) (cfg : Config) (st : CacheState) : bool :=
  negb (truthyTime (lastUpdate st)) || isOutdated now cfg st.

Definition replyOf (r : Routes.Reply * CacheState * list Event) : Routes.Reply :=
  fst (fst r).

(** A stand-in for [semver] on the tags of the concrete hosts: every
    string is valid and two versions compare equal when they are the same
    string. *)
Definition anyValid (v : string) : bool := true.

Definition compareSame (a : option string) (b : string) : option Z :=
  match a with
  | Some a' => if String.eqb a' b then Some 0 else Some 1
  | None => None
  end.

End MoreSpec.

(** * Properties *)

(** ** [path.extname] on slash-free names *)

Module PathFacts.

Import Path PathSpec.
Local Open Scope Z_scope.

Lemma stepChar_stateAfter (c : ascii) (suf : list ascii) (i : nat) :
  stepChar c (Z.of_nat i) (stateAfter suf (Z.of_nat i + 1))
  = stateAfter (c :: suf) (Z.of_nat i).
Proof.
  unfold stepChar.
  destruct suf as [|c' r].
  - cbn. destruct (Ascii.eqb c CHAR_DOT); cbn; f_equal; lia.
  - cbn [stateAfter endIdx].
    replace (Z.of_nat i + 1 + Z.of_nat (List.length (c' :: r)) =? -1) with false
      by (symmetry; apply Z.eqb_neq; lia).
    change (lastDot (c :: c' :: r)) with
      (match lastDot (c' :: r) with
       | Some k => Some (S k)
       | None => if Ascii.eqb c CHAR_DOT then Some O else None
       end).
    destruct (lastDot (c' :: r)) as [k|]; cbn [startDot preDotState startPart endIdx matchedSlash].
    + replace (Z.of_nat i + 1 + Z.of_nat k =? -1) with false
        by (symmetry; apply Z.eqb_neq; lia).
      destruct (Ascii.eqb c CHAR_DOT); cbn.
      * destruct k; [|destruct (Ascii.eqb c' CHAR_DOT)]; cbn; f_equal; lia.
      * f_equal; lia.
    + destruct (Ascii.eqb c CHAR_DOT); cbn; f_equal; lia.
Qed.

Lemma extnameLoop_stateAfter (pre suf : list ascii) :
  slashFree pre ->
  extnameLoop (pre ++ suf) (List.length pre)
              (stateAfter suf (Z.of_nat (List.length pre)))
  = stateAfter (pre ++ suf) 0.
Proof.
  revert suf. induction pre as [|c pre IH] using rev_ind; intros suf Hfree.
  - reflexivity.
  - apply Forall_app in Hfree as [Hpre Hc].
    inversion Hc as [|? ? Hc' _]; subst.
    rewrite length_app, Nat.add_1_r. cbn [extnameLoop].
    rewrite <- app_assoc. cbn [app].
    rewrite nth_error_app2 by lia. rewrite Nat.sub_diag. cbn [nth_error].
    rewrite Hc'.
    replace (Z.of_nat (S (List.length pre))) with (Z.of_nat (List.length pre) + 1) by lia.
    rewrite stepChar_stateAfter.
    apply IH; assumption.
Qed.

Lemma extnameLoop_slashFree (l : list ascii) :
  slashFree l ->
  extnameLoop l (List.length l) initState = stateAfter l 0.
Proof.
  intros H.
  pose proof (extnameLoop_stateAfter l [] H) as E.
  rewrite app_nil_r in E. exact E.
Qed.

Lemma lastDot_skipn (l : list ascii) (j : nat) :
  lastDot l = Some j -> skipn j l = CHAR_DOT :: skipn (S j) l.
Proof.
  revert j. induction l as [|c r IH]; intros j H; cbn in H; [discriminate|].
  destruct (lastDot r) as [k|] eqn:E.
  - inversion H; subst. cbn [skipn]. apply IH. reflexivity.
  - destruct (Ascii.eqb c CHAR_DOT) eqn:Ec; [|discriminate].
    inversion H; subst. apply Ascii.eqb_eq in Ec. subst. reflexivity.
Qed.

Lemma lastDot_lt (l : list ascii) (j : nat) :
  lastDot l = Some j -> (j < List.length l)%nat.
Proof.
  revert j. induction l as [|c r IH]; intros j H; cbn in H; [discriminate|].
  destruct (lastDot r) as [k|] eqn:E.
  - inversion H; subst. specialize (IH k eq_refl). cbn. lia.
  - destruct (Ascii.eqb c CHAR_DOT); [|discriminate].
    inversion H; subst. cbn. lia.
Qed.

Lemma sliceZ_to_end (l : list ascii) (j : nat) :
  sliceZ l (0 + Z.of_nat j) (0 + Z.of_nat (List.length l)) = skipn j l.
Proof.
  unfold sliceZ. rewrite !Z.add_0_l, Nat2Z.id.
  apply firstn_all2. rewrite length_skipn. lia.
Qed.

(** On a slash-free name, what follows the dot of [extname]'s result is
    the text after the last dot, unless that dot leads the name. *)
Lemma extnameChars_slashFree (l : list ascii) :
  slashFree l ->
  tl (extnameChars l)
  = match lastDot l with
    | Some (S k) => skipn (S (S k)) l
    | _ => []
    end.
Proof.
  intros Hfree. unfold extnameChars.
  rewrite (extnameLoop_slashFree l Hfree).
  destruct l as [|c r]; [reflexivity|].
  cbn [stateAfter startDot endIdx preDotState startPart].
  destruct (lastDot (c :: r)) as [[|k]|] eqn:E.
  - rewrite Z.eqb_refl, orb_true_r. reflexivity.
  - pose proof (lastDot_lt _ _ E) as Hlt.
    pose proof (lastDot_skipn _ _ E) as Hsk.
    replace (0 + Z.of_nat (S k) =? -1) with false
      by (symmetry; apply Z.eqb_neq; lia).
    replace (0 + Z.of_nat (List.length (c :: r)) =? -1) with false
      by (symmetry; apply Z.eqb_neq; lia).
    cbn [orb].
    destruct (Ascii.eqb c CHAR_DOT); cbn [Z.eqb orb andb].
    + destruct (0 + Z.of_nat (S k) =? 0 + Z.of_nat (List.length (c :: r)) - 1) eqn:E1;
        cbn [andb].
      * destruct (0 + Z.of_nat (S k) =? 0 + 1) eqn:E2.
        -- apply Z.eqb_eq in E1, E2.
           assert (k = O) by lia. subst k.
           assert (List.length (c :: r) = 2%nat) as Hlen by lia.
           destruct r as [|c1 [|c2 r2]]; cbn in Hlen; try lia. reflexivity.
        -- rewrite sliceZ_to_end, Hsk. reflexivity.
      * rewrite sliceZ_to_end, Hsk. reflexivity.
    + rewrite sliceZ_to_end, Hsk. reflexivity.
  - reflexivity.
Qed.

End PathFacts.

(** ** The platform identifier normalizer *)

Module PlatformFacts.

Import JsString Platform PathSpec.

Lemma slice1_of_list (l : list ascii) :
  slice1 (string_of_list_ascii l) = string_of_list_ascii (tl l).
Proof. destruct l; reflexivity. Qed.

Lemma afterLastDot_lastDot (s : string) :
  afterLastDot s
  = match lastDot (list_ascii_of_string s) with
    | Some j => Some (string_of_list_ascii (skipn (S j) (list_ascii_of_string s)))
    | None => None
    end.
Proof.
  induction s as [|c r IH]; [reflexivity|].
  cbn [afterLastDot list_ascii_of_string lastDot]. rewrite IH.
  destruct (lastDot (list_ascii_of_string r)) as [k|]; [reflexivity|].
  change Path.CHAR_DOT with "."%char.
  destruct (Ascii.eqb c "."); [|reflexivity].
  cbn [skipn]. rewrite string_of_list_ascii_of_string. reflexivity.
Qed.

Lemma noSlash_slashFree (s : string) :
  noSlash s = true -> slashFree (list_ascii_of_string s).
Proof.
  unfold noSlash, slashFree. induction s as [|c r IH]; intros H.
  - constructor.
  - cbn in H. apply negb_true_iff, orb_false_iff in H as [Hc Hr].
    constructor.
    + rewrite andb_true_r in Hc. rewrite Ascii.eqb_sym. exact Hc.
    + apply IH. apply negb_true_iff.
      destruct r; cbn in *; assumption.
Qed.

Lemma dotLed_lastDot (s : string) :
  dotLed s = false -> lastDot (list_ascii_of_string s) <> Some O.
Proof.
  destruct s as [|c r]; [discriminate|].
  intros H E. cbn [list_ascii_of_string lastDot] in E.
  pose proof (afterLastDot_lastDot r) as A.
  destruct (lastDot (list_ascii_of_string r)) as [k|]; [discriminate|].
  change Path.CHAR_DOT with "."%char in E.
  destruct (Ascii.eqb c ".") eqn:Ec; [|discriminate].
  apply Ascii.eqb_eq in Ec. subst c.
  cbn [dotLed] in H. rewrite A in H. discriminate.
Qed.

(** On a name without slash that is not a dotfile, [extname] delivers
    the text after the last dot. *)
Lemma extensionOf_specExtension (f : string) :
  noSlash f = true -> dotLed f = false -> extensionOf f = specExtension f.
Proof.
  intros Hs Hd.
  unfold extensionOf, specExtension, Path.extname.
  rewrite slice1_of_list, PathFacts.extnameChars_slashFree
    by (apply noSlash_slashFree; assumption).
  rewrite afterLastDot_lastDot.
  pose proof (dotLed_lastDot f Hd) as Hz.
  destruct (lastDot (list_ascii_of_string f)) as [[|k]|]; try reflexivity.
  contradiction Hz; reflexivity.
Qed.

Lemma archOf_specSuffix (f : string) : archOf f = specSuffix f.
Proof.
  unfold archOf, specSuffix.
  destruct (includes "arm64" f), (includes "aarch64" f); reflexivity.
Qed.

(** The code is the priority algorithm run on [extname]'s extension. *)
Lemma checkPlatform_priorityAlgorithm (f : string) :
  checkPlatform f = priorityAlgorithm (extensionOf f) f.
Proof.
  unfold checkPlatform, priorityAlgorithm, list_includes, linuxFormats.
  rewrite archOf_specSuffix. cbn [existsb].
  destruct (String.eqb (extensionOf f) "dmg"); [reflexivity|].
  destruct (String.eqb (extensionOf f) "AppImage"); [reflexivity|].
  rewrite (andb_comm (String.eqb (extensionOf f) "zip")).
  destruct ((includes "mac" f || includes "darwin" f)
            && String.eqb (extensionOf f) "zip"); [reflexivity|].
  destruct (String.eqb (extensionOf f) "exe"); [reflexivity|].
  destruct (String.eqb (extensionOf f) "rpm"), (String.eqb (extensionOf f) "deb");
    reflexivity.
Qed.

Lemma priorityAlgorithm_nonempty (ext f : string) :
  priorityAlgorithm ext f <> Some "".
Proof.
  unfold priorityAlgorithm.
  destruct (String.eqb ext "dmg"); [discriminate|].
  destruct (String.eqb ext "AppImage"); [discriminate|].
  destruct (String.eqb ext "zip" && (includes "mac" f || includes "darwin" f));
    [discriminate|].
  destruct (String.eqb ext "exe"); [discriminate|].
  destruct (String.eqb ext "deb") eqn:Ed.
  - apply String.eqb_eq in Ed. subst. discriminate.
  - destruct (String.eqb ext "rpm") eqn:Er; cbn [orb]; [|discriminate].
    apply String.eqb_eq in Er. subst. discriminate.
Qed.


(** C1 (as stated) fails on a dotfile: the text after the last dot of
    [.dmg] is [dmg], yet [extname] reports no extension and the
    normalizer answers [false]. *)
Lemma C1_counterexample_dotfile :
  specNormalize ".dmg" = Some "darwin"
  /\ checkPlatform ".dmg" = None
  /\ checkPlatform ".dmg" <> specNormalize ".dmg".
Proof. vm_compute. repeat split. discriminate. Qed.

(** C1 (amended): for every file name that contains no slash and whose
    only dot is not its first character, the normalizer returns exactly
    the result of the priority algorithm run on the text after the last
    dot (first match wins; [win32] is never suffixed; otherwise the
    not-recognized signal), and it never returns the empty string. *)
Theorem C1_checkPlatform_priority (f : string) :
  noSlash f = true ->
  dotLed f = false ->
  checkPlatform f = specNormalize f /\ checkPlatform f <> Some "".
Proof.
  intros Hs Hd. rewrite checkPlatform_priorityAlgorithm. split.
  - unfold specNormalize. rewrite extensionOf_specExtension by assumption.
    reflexivity.
  - apply priorityAlgorithm_nonempty.
Qed.

Lemma C1_checkPlatform_priority_witness :
  checkPlatform "Argos-Desktop-1.2.0-arm64.dmg"
    = specNormalize "Argos-Desktop-1.2.0-arm64.dmg"
  /\ checkPlatform "Argos-Desktop-1.2.0-arm64.dmg" <> Some "".
Proof.
  apply (C1_checkPlatform_priority "Argos-Desktop-1.2.0-arm64.dmg");
    vm_compute; reflexivity.
Defined.




End PlatformFacts.

(** ** The repository's own test vectors, and Node's documented examples *)

Module PlatformTests.
Import Platform.

Example t_dmg : checkPlatform "Argos-Desktop-1.2.0.dmg" = Some "darwin".
Proof. reflexivity. Qed.
Example t_dmg_arm : checkPlatform "Argos-Desktop-1.2.0-arm64.dmg" = Some "darwin_arm64".
Proof. reflexivity. Qed.
Example t_zip : checkPlatform "Argos-Desktop-1.2.0-mac.zip" = Some "darwin".
Proof. reflexivity. Qed.
Example t_appimage : checkPlatform "Argos-Desktop-1.2.0.AppImage" = Some "linux".
Proof. reflexivity. Qed.
Example t_appimage_arm :
  checkPlatform "Argos-Desktop-1.2.0-arm64.AppImage" = Some "linux_arm64".
Proof. reflexivity. Qed.
Example t_deb : checkPlatform "argos-desktop_1.2.0_amd64.deb" = Some "deb".
Proof. reflexivity. Qed.
Example t_rpm : checkPlatform "argos-desktop-1.2.0.x86_64.rpm" = Some "rpm".
Proof. reflexivity. Qed.
Example t_exe : checkPlatform "Argos-Desktop-Setup-1.2.0.exe" = Some "win32".
Proof. reflexivity. Qed.
Example t_exe_win : checkPlatform "Argos-Desktop-1.2.0-win.exe" = Some "win32".
Proof. reflexivity. Qed.

Example ext_index_html : Path.extname "index.html" = ".html".
Proof. reflexivity. Qed.
Example ext_index_coffee_md : Path.extname "index.coffee.md" = ".md".
Proof. reflexivity. Qed.
Example ext_index_dot : Path.extname "index." = ".".
Proof. reflexivity. Qed.
Example ext_index : Path.extname "index" = "".
Proof. reflexivity. Qed.
Example ext_dotindex : Path.extname ".index" = "".
Proof. reflexivity. Qed.
Example ext_dotindex_md : Path.extname ".index.md" = ".md".
Proof. reflexivity. Qed.
Example ext_dotdot : Path.extname ".." = "".
Proof. reflexivity. Qed.
Example ext_trailing_slash : Path.extname "file.ext//" = ".ext".
Proof. reflexivity. Qed.
Example ext_dir : Path.extname "dir.d/file" = "".
Proof. reflexivity. Qed.
End PlatformTests.

(** ** The alias resolver *)

Module AliasesFacts.

Import Aliases.

Lemma list_includes_In (l : list string) (x : string) :
  list_includes l x = true <-> In x l.
Proof.
  unfold list_includes. rewrite existsb_exists. split.
  - intros [y [Hy E]]. apply String.eqb_eq in E. subst. exact Hy.
  - intros H. exists x. split; [exact H|apply String.eqb_refl].
Qed.

Lemma has_of_key {V : Type} (o : JsObj.t V) (k : string) :
  In k (JsObj.keys o) -> JsObj.has k o = true.
Proof.
  unfold JsObj.has. induction o as [|[k' v] rest IH]; cbn; intros H.
  - contradiction.
  - destruct (String.eqb k k') eqn:E; [reflexivity|].
    destruct H as [H|H]; [subst; rewrite String.eqb_refl in E; discriminate|].
    apply IH. exact H.
Qed.

(** The scan of [checkAlias] returns the first declared owner. *)
Lemma scan_firstOwner (tbl : JsObj.t (list string)) (a : string) :
  scan tbl a = firstOwner tbl a.
Proof.
  unfold firstOwner. induction tbl as [|[k l] rest IH]; [reflexivity|].
  cbn [scan filter snd]. destruct (list_includes l a); [reflexivity|]. exact IH.
Qed.

Lemma checkAliasIn_key (tbl : JsObj.t (list string)) (k : string) :
  In k (JsObj.keys tbl) -> checkAliasIn tbl k = Some k.
Proof.
  intros H. unfold checkAliasIn, defined.
  rewrite (has_of_key tbl k H). reflexivity.
Qed.

Example aliases_derived :
  aliases
  = (baseAliases ++
     [ ("darwin_arm64", ["mac_arm64"; "macos_arm64"; "osx_arm64"; "dmg_arm64"]);
       ("win32_arm64", ["windows_arm64"; "win_arm64"; "exe_arm64"]);
       ("linux_arm64", ["AppImage_arm64"; "appimage_arm64"]);
       ("deb_arm64", ["debian_arm64"]);
       ("rpm_arm64", ["fedora_arm64"]);
       ("exe_arm64", ["win32_arm64"; "windows_arm64"; "win_arm64"]) ])%list.
Proof. reflexivity. Qed.

(** C7 (as stated) fails: [exe] is declared in the list of [win32] only,
    yet it is a table key itself and resolves to itself. *)
Lemma C7_counterexample_exe :
  JsObj.get "win32" baseAliases = Some ["windows"; "win"; "exe"]
  /\ firstOwner baseAliases "exe" = Some "win32"
  /\ checkAlias "exe" = Some "exe"
  /\ checkAlias "exe" <> Some "win32".
Proof. vm_compute. repeat split. discriminate. Qed.

(** C7 (amended): every alias declared in the base table has a first
    declared owner, which is the key declaring it except for [windows]
    and [win], declared by [win32] and again by [exe]; an alias that is
    not itself a key of the table resolves to that owner and its [_arm64]
    variant to the owner's [_arm64] key, whereas an alias that is itself a
    key ([exe], [win32]) resolves to itself, and so does its [_arm64]
    variant. *)
Theorem C7_checkAlias_declared (k : string) (l : list string) (a : string) :
  In (k, l) baseAliases ->
  In a l ->
  exists owner,
    firstOwner baseAliases a = Some owner
    /\ (owner = k \/ (k = "exe" /\ owner = "win32" /\ In a ["windows"; "win"]))
    /\ checkAlias a = Some (if isKey a then a else owner)
    /\ checkAlias (arm64 a) = Some (if isKey a then arm64 a else arm64 owner).
Proof.
  intros Hk Ha. cbn in Hk.
  repeat (destruct Hk as [Hk|Hk];
          [inversion Hk; subst; cbn in Ha;
           repeat (destruct Ha as [Ha|Ha];
                   [subst; eexists;
                    split; [reflexivity|];
                    split; [first [left; reflexivity
                                  |right; repeat split; cbn; tauto]|];
                    split; reflexivity|]);
           contradiction|]).
  contradiction.
Qed.

Lemma C7_checkAlias_declared_witness :
  exists owner,
    firstOwner baseAliases "macos" = Some owner
    /\ (owner = "darwin"
        \/ ("darwin" = "exe" /\ owner = "win32" /\ In "macos" ["windows"; "win"]))
    /\ checkAlias "macos" = Some (if isKey "macos" then "macos" else owner)
    /\ checkAlias (arm64 "macos")
       = Some (if isKey "macos" then arm64 "macos" else arm64 owner).
Proof.
  apply (C7_checkAlias_declared "darwin" ["mac"; "macos"; "osx"; "dmg"] "macos").
  - cbn. left. reflexivity.
  - cbn. right. left. reflexivity.
Defined.

(** C8: the alias resolver is idempotent on canonical keys: the derived
    table has the six base keys followed by their six [_arm64] twins, and
    every key of it resolves to itself. *)
Theorem C8_checkAlias_key :
  JsObj.keys aliases
  = (JsObj.keys baseAliases ++ map arm64 (JsObj.keys baseAliases))%list
  /\ forall K : string, In K (JsObj.keys aliases) -> checkAlias K = Some K.
Proof.
  split; [reflexivity|]. intros K. apply checkAliasIn_key.
Qed.

Lemma C8_checkAlias_key_witness : checkAlias "deb_arm64" = Some "deb_arm64".
Proof.
  apply (proj2 C8_checkAlias_key "deb_arm64"). cbn. do 9 right. left. reflexivity.
Defined.

Example aliases_keys :
  JsObj.keys aliases
  = [ "darwin"; "win32"; "linux"; "deb"; "rpm"; "exe";
      "darwin_arm64"; "win32_arm64"; "linux_arm64"; "deb_arm64"; "rpm_arm64";
      "exe_arm64" ].
Proof. reflexivity. Qed.

End AliasesFacts.

(** ** Ordered dictionaries *)

Module JsObjFacts.

Import JsObj.

Lemma get_In {V : Type} (o : t V) (k : string) (v : V) :
  get k o = Some v -> In (k, v) o.
Proof.
  induction o as [|[k' v'] rest IH]; cbn; intros H; [discriminate|].
  destruct (String.eqb k k') eqn:E.
  - apply String.eqb_eq in E. inversion H; subst. left. reflexivity.
  - right. apply IH. exact H.
Qed.

Lemma In_set {V : Type} (o : t V) (k k' : string) (v a : V) :
  In (k', a) (set k v o) -> (k' = k /\ a = v) \/ In (k', a) o.
Proof.
  induction o as [|[k0 v0] rest IH]; cbn.
  - intros [H|[]]. inversion H; subst. left. split; reflexivity.
  - destruct (String.eqb k k0); cbn; intros [H|H].
    + inversion H; subst. left. split; reflexivity.
    + right. right. exact H.
    + right. left. exact H.
    + destruct (IH H) as [L|R]; [left; exact L|right; right; exact R].
Qed.

Lemma In_keys_set {V : Type} (o : t V) (k k' : string) (v : V) :
  In k' (keys (set k v o)) -> k' = k \/ In k' (keys o).
Proof.
  unfold keys. intros H. apply in_map_iff in H as [[k1 a] [E Hin]].
  cbn in E. subst k1.
  destruct (In_set o k k' v a Hin) as [[L _]|R]; [left; exact L|].
  right. apply in_map_iff. exists (k', a). split; [reflexivity|exact R].
Qed.

Lemma NoDup_keys_set {V : Type} (o : t V) (k : string) (v : V) :
  NoDup (keys o) -> NoDup (keys (set k v o)).
Proof.
  induction o as [|[k0 v0] rest IH]; cbn; intros H.
  - constructor; [intros []|constructor].
  - inversion H as [|? ? Hnot Hrest]; subst.
    destruct (String.eqb k k0) eqn:E.
    + apply String.eqb_eq in E. subst. cbn. constructor; assumption.
    + cbn. constructor; [|apply IH; exact Hrest].
      intros Hin. apply In_keys_set in Hin as [L|R].
      * subst. rewrite String.eqb_refl in E. discriminate.
      * exact (Hnot R).
Qed.

End JsObjFacts.

(** ** The snapshot cache *)

Module CacheFacts.

Import Cache CacheSpec.
Local Open Scope Z_scope.
Local Open Scope list_scope.

(** *** The retried fetch *)

Lemma retry_fetched_log (w : World) :
  retry (fetchReleaseList w) 0 3 = (fetched w, fetchLog w).
Proof. unfold fetched, fetchLog. apply surjective_pairing. Qed.

Lemma attemptFails_None (w : World) (n : nat) :
  attemptFails w n -> fetchReleaseList w n = None.
Proof.
  unfold attemptFails, fetchReleaseList.
  destruct (fetchReleases w n) as [r|]; [|reflexivity].
  intros H. apply Z.eqb_neq in H. rewrite H. reflexivity.
Qed.

Lemma retry_exhausted (w : World) :
  (forall n, (n <= 3)%nat -> attemptFails w n) ->
  retry (fetchReleaseList w) 0 3
  = (None, [EvFetchReleases 0; EvFetchReleases 1; EvFetchReleases 2; EvFetchReleases 3]).
Proof.
  intros H. cbn [retry].
  rewrite !attemptFails_None by (apply H; lia). reflexivity.
Qed.

Lemma retry_log_fetch_only {A : Type} (op : nat -> option A) (retries attempt : nat) :
  forallb isFetchReleases (snd (retry op attempt retries)) = true.
Proof.
  revert attempt. induction retries as [|r IH]; intros attempt; cbn [retry].
  - destruct (op attempt); reflexivity.
  - destruct (op attempt); [reflexivity|].
    specialize (IH (S attempt)).
    destruct (retry op (S attempt) r) as [x log]. exact IH.
Qed.

Lemma find_all_false {A : Type} (f : A -> bool) (l : list A) :
  (forall x, In x l -> f x = false) -> find f l = None.
Proof.
  induction l as [|x r IH]; intros H; [reflexivity|].
  cbn [find]. rewrite (H x (or_introl eq_refl)).
  apply IH. intros y Hy. apply H. right. exact Hy.
Qed.

Lemma selectRelease_none (cfg : Config) (data : list Release) :
  (forall item, In item data ->
     draft item = true \/ prerelease item <> booleanOf (pre cfg)) ->
  selectRelease cfg data = None.
Proof.
  intros H. apply find_all_false. intros item Hin.
  destruct (H item Hin) as [Hd|Hp].
  - rewrite Hd. reflexivity.
  - destruct (booleanOf (pre cfg)), (prerelease item), (draft item);
      try reflexivity; contradiction Hp; reflexivity.
Qed.

Lemma refreshCache_exhausted (w : World) (cfg : Config) (st : CacheState) :
  (forall n, (n <= 3)%nat -> attemptFails w n) ->
  refreshCache w cfg st
  = (Thrown, st,
     [EvFetchReleases 0; EvFetchReleases 1; EvFetchReleases 2; EvFetchReleases 3]).
Proof.
  intros H. unfold refreshCache. rewrite (retry_exhausted w H). reflexivity.
Qed.

(** C4: when the release-list fetch fails on each of the four attempts of
    the retry budget (transport failure or a status other than 200), the
    refresh throws and leaves the whole state, the snapshot and the
    staleness clock, exactly as it was. *)
Theorem C4_refresh_fetch_exhausted (w : World) (cfg : Config) (st : CacheState) :
  (forall n, (n <= 3)%nat -> attemptFails w n) ->
  refreshCache w cfg st
  = (Thrown, st,
     [EvFetchReleases 0; EvFetchReleases 1; EvFetchReleases 2; EvFetchReleases 3]).
Proof.
  apply refreshCache_exhausted.
Qed.

(** C10: when the release list is fetched but is not a non-empty array,
    or lists no release that is not a draft and whose prerelease flag
    equals [Boolean(pre)], or the selected release has no assets array,
    the refresh returns with the snapshot and the staleness clock
    unchanged. *)
Theorem C10_refresh_nothing_to_cache
        (w : World) (cfg : Config) (st : CacheState)
        (response : Response) (d : ReleaseData) :
  fetched w = Some response ->
  json response = Some d ->
  nothingToCache cfg d ->
  refreshCache w cfg st = (Returned, st, fetchLog w).
Proof.
  intros Hf Hj Hn. unfold refreshCache.
  rewrite retry_fetched_log, Hf, Hj.
  destruct d as [|data]; [reflexivity|].
  destruct data as [|r0 rest]; [reflexivity|].
  cbn [nothingToCache] in Hn.
  destruct Hn as [Hn|[Hn|[release [Hsel Hassets]]]].
  - discriminate.
  - rewrite (selectRelease_none cfg _ Hn). reflexivity.
  - rewrite Hsel, Hassets. reflexivity.
Qed.

Lemma refreshCache_short_circuit
      (w : World) (cfg : Config) (st : CacheState)
      (response : Response) (data : list Release)
      (release : Release) (l : list RawAsset) :
  fetched w = Some response ->
  json response = Some (ReleaseArray data) ->
  selectRelease cfg data = Some release ->
  assets release = Some l ->
  version (latest st) = Some (tag_name release) ->
  refreshCache w cfg st
  = (Returned, mkCacheState (latest st) (Some (dateNow w)), fetchLog w).
Proof.
  intros Hf Hj Hsel Hassets Hver.
  unfold refreshCache. rewrite retry_fetched_log, Hf, Hj.
  destruct data as [|r0 rest]; [discriminate|].
  rewrite Hsel, Hassets, Hver. cbn [optionStringEqb].
  rewrite String.eqb_refl. reflexivity.
Qed.

(** C3 (amended): while a previous snapshot exists, a call of [loadCache]
    that finds it fresh runs no refresh and resolves to the snapshot; a
    call that finds it outdated while the release-list fetch exhausts its
    retry budget is rejected with that error, the stored snapshot and the
    staleness clock staying as they were. *)
Theorem C3_loadCache_with_snapshot
        (w : World) (now : Z) (cfg : Config) (st : CacheState) :
  truthyTime (lastUpdate st) = true ->
  (isOutdated now cfg st = false ->
     loadCache w now cfg st = (Some (latest st), st, []))
  /\ (isOutdated now cfg st = true ->
      (forall n, (n <= 3)%nat -> attemptFails w n) ->
      loadCache w now cfg st
      = (None, st,
         [EvFetchReleases 0; EvFetchReleases 1; EvFetchReleases 2;
          EvFetchReleases 3])).
Proof.
  intros Ht. unfold loadCache. rewrite Ht. cbn [negb orb]. split.
  - intros Ho. rewrite Ho. reflexivity.
  - intros Ho Hfail. rewrite Ho.
    rewrite (refreshCache_exhausted w cfg st Hfail). reflexivity.
Qed.

(** *** Platform maps are keyed by the normalizer *)

Lemma wellKeyed_empty : wellKeyed JsObj.empty.
Proof.
  split; [constructor|]. intros k a [].
Qed.

Lemma wellKeyed_set (p : JsObj.t PlatformAsset) (asset : RawAsset) (k : string) :
  wellKeyed p ->
  Platform.checkPlatform (name asset) = Some k ->
  wellKeyed (JsObj.set k (newPlatformAsset asset) p).
Proof.
  intros [Hnd Hkey] Hk. split.
  - apply JsObjFacts.NoDup_keys_set. exact Hnd.
  - intros k' a Hin.
    apply JsObjFacts.In_set in Hin as [[-> ->]|Hin]; [exact Hk|].
    apply Hkey. exact Hin.
Qed.

Lemma wellKeyed_tail (k0 : string) (d : PlatformAsset) (rest : JsObj.t PlatformAsset) :
  wellKeyed ((k0, d) :: rest) -> wellKeyed rest.
Proof.
  intros [Hnd Hkey]. split.
  - inversion Hnd; assumption.
  - intros k a Hin. apply Hkey. right. exact Hin.
Qed.

Lemma attachTo_keys (k : ManifestKind) (e : ManifestEntry) (f : string)
      (p : JsObj.t PlatformAsset) :
  JsObj.keys (attachTo k e f p) = JsObj.keys p.
Proof.
  induction p as [|[k0 d] rest IH]; [reflexivity|].
  cbn [attachTo]. destruct (String.eqb (pa_name d) f); cbn; [reflexivity|].
  f_equal. exact IH.
Qed.

Lemma attachTo_In (k : ManifestKind) (e : ManifestEntry) (f : string)
      (p : JsObj.t PlatformAsset) (key : string) (a' : PlatformAsset) :
  In (key, a') (attachTo k e f p) ->
  exists a, In (key, a) p /\ pa_name a' = pa_name a.
Proof.
  induction p as [|[k0 d] rest IH]; [intros []|].
  cbn [attachTo]. destruct (String.eqb (pa_name d) f); cbn; intros [H|H].
  - inversion H; subst. exists d. split; [left; reflexivity|reflexivity].
  - exists a'. split; [right; exact H|reflexivity].
  - inversion H; subst. exists a'. split; [left; reflexivity|reflexivity].
  - destruct (IH H) as [a [Hin Hn]]. exists a. split; [right; exact Hin|exact Hn].
Qed.

Lemma attachTo_wellKeyed (k : ManifestKind) (e : ManifestEntry) (f : string)
      (p : JsObj.t PlatformAsset) :
  wellKeyed p -> wellKeyed (attachTo k e f p).
Proof.
  intros [Hnd Hkey]. split.
  - rewrite attachTo_keys. exact Hnd.
  - intros key a' Hin.
    destruct (attachTo_In k e f p key a' Hin) as [a [Ha Hn]].
    rewrite Hn. apply Hkey. exact Ha.
Qed.

Lemma applyEntry_wellKeyed (k : ManifestKind) (e : ManifestEntry)
      (p : JsObj.t PlatformAsset) :
  wellKeyed p -> wellKeyed (applyEntry k e p).
Proof.
  intros H. unfold applyEntry.
  destruct (e_url e) as [f|]; [|exact H].
  destruct (JsString.truthy f); [|exact H].
  apply attachTo_wellKeyed. exact H.
Qed.

(** The first asset of a given name is the one filed under the key of
    that name: the loop of [attachTo] stops on it and touches it only. *)
Lemma attachTo_match (k : ManifestKind) (e : ManifestEntry) (f : string)
      (p : JsObj.t PlatformAsset) (key : string) (a : PlatformAsset) :
  wellKeyed p ->
  JsObj.get key p = Some a ->
  pa_name a = f ->
  JsObj.get key (attachTo k e f p) = Some (attachChecksum k e a)
  /\ forall key', key' <> key ->
       JsObj.get key' (attachTo k e f p) = JsObj.get key' p.
Proof.
  intros Hwk Hget Hname.
  assert (Platform.checkPlatform f = Some key) as Hf.
  { rewrite <- Hname. apply (proj2 Hwk). apply JsObjFacts.get_In. exact Hget. }
  induction p as [|[k0 d] rest IH]; [discriminate|].
  pose proof (proj2 Hwk k0 d (or_introl eq_refl)) as Hd.
  cbn [attachTo]. cbn [JsObj.get] in Hget.
  destruct (String.eqb (pa_name d) f) eqn:En.
  - apply String.eqb_eq in En. rewrite En, Hf in Hd.
    inversion Hd; subst k0. rewrite String.eqb_refl in Hget.
    inversion Hget; subst d. split.
    + cbn. rewrite String.eqb_refl. reflexivity.
    + intros key' Hne. cbn. apply String.eqb_neq in Hne. rewrite Hne. reflexivity.
  - destruct (String.eqb key k0) eqn:Ek.
    + inversion Hget; subst d. rewrite Hname, String.eqb_refl in En. discriminate.
    + destruct (IH (wellKeyed_tail _ _ _ Hwk) Hget) as [IH1 IH2]. split.
      * cbn. rewrite Ek. exact IH1.
      * intros key' Hne. cbn. destruct (String.eqb key' k0); [reflexivity|].
        apply IH2. exact Hne.
Qed.

Lemma attachTo_no_match (k : ManifestKind) (e : ManifestEntry) (f : string)
      (p : JsObj.t PlatformAsset) :
  (forall key a, In (key, a) p -> pa_name a <> f) ->
  attachTo k e f p = p.
Proof.
  induction p as [|[k0 d] rest IH]; intros H; [reflexivity|].
  cbn [attachTo].
  pose proof (H k0 d (or_introl eq_refl)) as Hd.
  apply String.eqb_neq in Hd. rewrite Hd. f_equal.
  apply IH. intros key a Hin. apply (H key a). right. exact Hin.
Qed.

Lemma checkPlatform_truthy (f key : string) :
  Platform.checkPlatform f = Some key -> JsString.truthy f = true.
Proof.
  destruct f; [vm_compute; discriminate|reflexivity].
Qed.

(** A whole manifest, well formed or not, leaves the keys of the map, their
    order and every field but the checksum fields as they were. *)
Lemma attachTo_frame (k : ManifestKind) (e : ManifestEntry) (f : string)
      (p : JsObj.t PlatformAsset) :
  frameOfMap (attachTo k e f p) = frameOfMap p.
Proof.
  induction p as [|[k0 d] rest IH]; [reflexivity|].
  cbn [attachTo]. destruct (String.eqb (pa_name d) f); [reflexivity|].
  cbn. f_equal. exact IH.
Qed.

Lemma applyItems_frame (k : ManifestKind) (items : list ManifestItem)
      (p : JsObj.t PlatformAsset) :
  frameOfMap (applyItems k items p) = frameOfMap p.
Proof.
  revert p. induction items as [|[|e] rest IH]; intros p; cbn [applyItems];
    try reflexivity.
  rewrite IH. unfold applyEntry.
  destruct (e_url e) as [f|]; [|reflexivity].
  destruct (JsString.truthy f); [|reflexivity].
  apply attachTo_frame.
Qed.

Lemma platforms2_wellKeyed : wellKeyed Scenario.platforms2.
Proof.
  unfold Scenario.platforms2.
  apply wellKeyed_set; [apply wellKeyed_set; [apply wellKeyed_empty|]|];
    vm_compute; reflexivity.
Qed.

Example linuxEntry_applied :
  applyEntry LinuxManifest Scenario.linuxEntry Scenario.platforms2
  = [ ("darwin", newPlatformAsset Scenario.dmg2);
      ("linux",
       mkPlatformAsset "App-2.0.0.AppImage" "https://api.example/assets/5"
                       "https://dl.example/v2/App-2.0.0.AppImage"
                       "application/octet-stream" (RoundedMB 61000000)
                       (Some "bGludXgtc2hhNTEy") (Some 65536)) ].
Proof. vm_compute. reflexivity. Qed.

(** *** The platform map stays keyed by the normalizer *)

Lemma processAsset_wellKeyed (w : World) (ls : LoopState) (asset : RawAsset) :
  wellKeyed (platformsOf (ls_latest ls)) ->
  wellKeyed (platformsOf (ls_latest (processAsset w ls asset))).
Proof.
  intros H. unfold processAsset.
  destruct (String.eqb (name asset) "RELEASES").
  - destruct (cacheReleaseList w (browser_download_url asset)); exact H.
  - destruct (JsString.endsWith ".yml" (name asset)).
    + destruct (fetchText w (browser_download_url asset)); exact H.
    + destruct (Platform.checkPlatform (name asset)) as [platform|] eqn:E; [|exact H].
      cbn. apply wellKeyed_set; assumption.
Qed.

Lemma processAssets_wellKeyed (w : World) (l : list RawAsset) (ls : LoopState) :
  wellKeyed (platformsOf (ls_latest ls)) ->
  wellKeyed (platformsOf (ls_latest (processAssets w ls l))).
Proof.
  revert ls. induction l as [|asset rest IH]; intros ls H; [exact H|].
  cbn [processAssets fold_left]. apply IH. apply processAsset_wellKeyed. exact H.
Qed.

Lemma applyItems_wellKeyed (k : ManifestKind) (items : list ManifestItem)
      (p : JsObj.t PlatformAsset) :
  wellKeyed p -> wellKeyed (applyItems k items p).
Proof.
  revert p. induction items as [|[|e] rest IH]; intros p H; cbn; try exact H.
  apply IH. apply applyEntry_wellKeyed. exact H.
Qed.

Lemma applyManifest_wellKeyed (w : World) (k : ManifestKind) (yamls : JsObj.t string)
      (pl : JsObj.t PlatformAsset * list Event) :
  wellKeyed (fst pl) -> wellKeyed (fst (applyManifest w k yamls pl)).
Proof.
  destruct pl as [p log]. cbn [fst]. intros H. unfold applyManifest.
  destruct (JsObj.get (manifestName k) yamls) as [content|]; [|exact H].
  destruct (JsString.truthy content); [|exact H].
  destruct (yamlLoad w content); cbn [fst]; try exact H.
  apply applyItems_wellKeyed. exact H.
Qed.

Lemma applyManifests_wellKeyed (w : World) (ls : LoopState) :
  wellKeyed (platformsOf (ls_latest ls)) ->
  wellKeyed (platformsOf (fst (applyManifests w ls))).
Proof.
  intros H. unfold applyManifests.
  destruct (ls_yaml ls) as [|y ys]; [exact H|].
  cbn [fst platformsOf setPlatforms platforms].
  repeat apply applyManifest_wellKeyed. exact H.
Qed.

Lemma cacheRelease_wellKeyed (w : World) (release : Release) (l : list RawAsset)
      (log : list Event) (st : CacheState) :
  wellKeyed (platformsOf (latest (stateOf (cacheRelease w release l log st)))).
Proof.
  unfold cacheRelease.
  match goal with
  | |- context [applyManifests w ?ls] =>
      pose proof (applyManifests_wellKeyed w ls) as H;
      destruct (applyManifests w ls) as [s log']
  end.
  apply H. apply processAssets_wellKeyed. exact wellKeyed_empty.
Qed.

(** Invariant of the cache: whatever a refresh does, the platform map
    stays keyed by the normalizer. *)
Lemma refreshCache_wellKeyed (w : World) (cfg : Config) (st : CacheState) :
  wellKeyed (platformsOf (latest st)) ->
  wellKeyed (platformsOf (latest (stateOf (refreshCache w cfg st)))).
Proof.
  intros H. unfold refreshCache.
  destruct (retry (fetchReleaseList w) 0 3) as [[response|] log]; [|exact H].
  destruct (json response) as [[|[|r0 rest]]|]; try exact H.
  destruct (selectRelease cfg (r0 :: rest)) as [release|]; [|exact H].
  destruct (assets release) as [l|]; [|exact H].
  destruct (optionStringEqb (version (latest st)) (tag_name release)); [exact H|].
  apply cacheRelease_wellKeyed.
Qed.

(** *** What a refresh that caches a new version writes *)

Lemma processAsset_header (w : World) (ls : LoopState) (asset : RawAsset) :
  version (ls_latest (processAsset w ls asset)) = version (ls_latest ls)
  /\ notes (ls_latest (processAsset w ls asset)) = notes (ls_latest ls)
  /\ pub_date (ls_latest (processAsset w ls asset)) = pub_date (ls_latest ls).
Proof.
  unfold processAsset.
  destruct (String.eqb (name asset) "RELEASES").
  - destruct (cacheReleaseList w (browser_download_url asset)); repeat split.
  - destruct (JsString.endsWith ".yml" (name asset)).
    + destruct (fetchText w (browser_download_url asset)); repeat split.
    + destruct (Platform.checkPlatform (name asset)); repeat split.
Qed.

Lemma processAssets_header (w : World) (l : list RawAsset) (ls : LoopState) :
  version (ls_latest (processAssets w ls l)) = version (ls_latest ls)
  /\ notes (ls_latest (processAssets w ls l)) = notes (ls_latest ls)
  /\ pub_date (ls_latest (processAssets w ls l)) = pub_date (ls_latest ls).
Proof.
  revert ls. induction l as [|asset rest IH]; intros ls; [repeat split|].
  cbn [processAssets fold_left].
  destruct (IH (processAsset w ls asset)) as [H1 [H2 H3]].
  destruct (processAsset_header w ls asset) as [G1 [G2 G3]].
  unfold processAssets in *. rewrite H1, H2, H3. repeat split; assumption.
Qed.

Lemma applyManifests_header (w : World) (ls : LoopState) :
  version (fst (applyManifests w ls)) = version (ls_latest ls)
  /\ notes (fst (applyManifests w ls)) = notes (ls_latest ls)
  /\ pub_date (fst (applyManifests w ls)) = pub_date (ls_latest ls).
Proof.
  unfold applyManifests. destruct (ls_yaml ls); repeat split.
Qed.

Lemma cacheRelease_header (w : World) (release : Release) (l : list RawAsset)
      (log : list Event) (st : CacheState) :
  completionOf (cacheRelease w release l log st) = Returned
  /\ lastUpdate (stateOf (cacheRelease w release l log st)) = Some (dateNow w)
  /\ version (latest (stateOf (cacheRelease w release l log st)))
     = Some (tag_name release)
  /\ notes (latest (stateOf (cacheRelease w release l log st)))
     = Some (body release)
  /\ pub_date (latest (stateOf (cacheRelease w release l log st)))
     = Some (published_at release).
Proof.
  unfold cacheRelease.
  match goal with
  | |- context [applyManifests w ?ls] =>
      pose proof (applyManifests_header w ls) as [H1 [H2 H3]];
      destruct (applyManifests w ls) as [s log']
  end.
  cbn [fst] in H1, H2, H3.
  match type of H1 with
  | context [processAssets w ?ls l] =>
      destruct (processAssets_header w l ls) as [G1 [G2 G3]]
  end.
  cbn. rewrite H1, H2, H3, G1, G2, G3. repeat split.
Qed.

Lemma processAsset_agrees (w : World) (ls ls0 : LoopState) (asset : RawAsset) :
  loopAgrees ls ls0 ->
  loopAgrees (processAsset w ls asset) (processAsset w ls0 asset).
Proof.
  destruct ls as [[v n d pl fl] y lg], ls0 as [[v0 n0 d0 pl0 fl0] y0 lg0].
  unfold loopAgrees, agreesWith, releasesOf, yamlFilesOf. cbn.
  intros [[-> [-> [-> [-> [Hr Hy]]]]] [-> ->]].
  unfold processAsset. cbn.
  destruct (String.eqb (name asset) "RELEASES").
  - destruct (cacheReleaseList w (browser_download_url asset)); cbn;
      repeat split; try assumption;
      destruct fl as [f|], fl0 as [f0|]; cbn in *; intros; auto; discriminate.
  - destruct (JsString.endsWith ".yml" (name asset)).
    + destruct (fetchText w (browser_download_url asset)); cbn;
        repeat split; assumption.
    + destruct (Platform.checkPlatform (name asset)); cbn;
        repeat split; assumption.
Qed.

Lemma processAssets_agrees (w : World) (l : list RawAsset) (ls ls0 : LoopState) :
  loopAgrees ls ls0 ->
  loopAgrees (processAssets w ls l) (processAssets w ls0 l).
Proof.
  revert ls ls0. induction l as [|asset rest IH]; intros ls ls0 H; [exact H|].
  cbn [processAssets fold_left]. apply IH. apply processAsset_agrees. exact H.
Qed.

Lemma applyManifests_agrees (w : World) (ls ls0 : LoopState) :
  loopAgrees ls ls0 ->
  agreesWith (fst (applyManifests w ls)) (fst (applyManifests w ls0))
  /\ snd (applyManifests w ls) = snd (applyManifests w ls0).
Proof.
  destruct ls as [[v n d pl fl] y lg], ls0 as [[v0 n0 d0 pl0 fl0] y0 lg0].
  unfold loopAgrees, agreesWith, releasesOf, yamlFilesOf. cbn.
  intros [[-> [-> [-> [-> [Hr Hy]]]]] [-> ->]].
  unfold applyManifests. cbn.
  destruct y0 as [|y1 ys]; cbn.
  - repeat split; assumption.
  - repeat split; try assumption; [|intros y E; exact E].
    destruct fl as [f|], fl0 as [f0|]; cbn in *; intros; auto; discriminate.
Qed.

Lemma cacheRelease_agrees (w : World) (release : Release) (l : list RawAsset)
      (log : list Event) (st : CacheState) :
  agreesWith (latest (stateOf (cacheRelease w release l log st)))
             (latest (stateOf (cacheRelease w release l log initialState))).
Proof.
  unfold cacheRelease.
  match goal with
  | |- context [applyManifests w (processAssets w ?a l)] =>
      match goal with
      | |- context [applyManifests w (processAssets w ?b l)] =>
          lazymatch a with
          | b => fail
          | _ => assert (loopAgrees a b) as Hstart
          end
      end
  end.
  { unfold loopAgrees, agreesWith, releasesOf, yamlFilesOf. cbn.
    repeat split; intros; discriminate. }
  apply (processAssets_agrees w l) in Hstart.
  apply (applyManifests_agrees w) in Hstart as [Hag _].
  match goal with
  | H : agreesWith (fst (applyManifests w ?a)) (fst (applyManifests w ?b)) |- _ =>
      destruct (applyManifests w a) as [s lg], (applyManifests w b) as [s0 lg0]
  end.
  exact Hag.
Qed.

Lemma optionStringEqb_false (a : option string) (b : string) :
  a <> Some b -> optionStringEqb a b = false.
Proof.
  destruct a as [a'|]; [|reflexivity]. cbn. intros H.
  apply String.eqb_neq. intros ->. apply H. reflexivity.
Qed.

Lemma optionStringEqb_true (a : option string) (b : string) :
  optionStringEqb a b = true -> a = Some b.
Proof.
  destruct a as [a'|]; [|discriminate]. cbn. intros H.
  apply String.eqb_eq in H. subst. reflexivity.
Qed.

(** The refresh reduces to [cacheRelease] once a release with another
    tag is selected. *)
Lemma refreshCache_new_version
      (w : World) (cfg : Config) (st : CacheState)
      (response : Response) (data : list Release)
      (release : Release) (l : list RawAsset) :
  fetched w = Some response ->
  json response = Some (ReleaseArray data) ->
  selectRelease cfg data = Some release ->
  assets release = Some l ->
  version (latest st) <> Some (tag_name release) ->
  refreshCache w cfg st = cacheRelease w release l (fetchLog w) st.
Proof.
  intros Hf Hj Hsel Hassets Hver. unfold refreshCache.
  rewrite retry_fetched_log, Hf, Hj.
  destruct data as [|r0 rest]; [discriminate|].
  rewrite Hsel, Hassets, (optionStringEqb_false _ _ Hver). reflexivity.
Qed.

(** *** A whole manifest *)

Lemma attachTo_other (k : ManifestKind) (e : ManifestEntry) (f : string)
      (p : JsObj.t PlatformAsset) (key : string) (a : PlatformAsset) :
  JsObj.get key p = Some a ->
  pa_name a <> f ->
  JsObj.get key (attachTo k e f p) = Some a.
Proof.
  intros Hget Hne. induction p as [|[k0 d] rest IH]; [discriminate|].
  cbn [attachTo]. cbn [JsObj.get] in Hget.
  destruct (String.eqb (pa_name d) f) eqn:En.
  - apply String.eqb_eq in En. cbn [JsObj.get].
    destruct (String.eqb key k0); [|exact Hget].
    inversion Hget; subst d. contradiction.
  - cbn [JsObj.get]. destruct (String.eqb key k0); [exact Hget|].
    apply IH. exact Hget.
Qed.

Lemma applyEntry_get (k : ManifestKind) (e : ManifestEntry)
      (p : JsObj.t PlatformAsset) (key : string) (a : PlatformAsset) :
  wellKeyed p ->
  JsObj.get key p = Some a ->
  JsObj.get key (applyEntry k e p)
  = Some (if namesFile (pa_name a) e then attachChecksum k e a else a).
Proof.
  intros Hwk Hget.
  assert (JsString.truthy (pa_name a) = true) as Ht.
  { apply (checkPlatform_truthy (pa_name a) key).
    apply (proj2 Hwk). apply JsObjFacts.get_In. exact Hget. }
  unfold applyEntry, namesFile.
  destruct (e_url e) as [f|]; [|exact Hget].
  destruct (String.eqb f (pa_name a)) eqn:Ef.
  - apply String.eqb_eq in Ef. subst f. rewrite Ht.
    apply (attachTo_match k e (pa_name a) p key a Hwk Hget eq_refl).
  - destruct (JsString.truthy f); [|exact Hget].
    apply attachTo_other; [exact Hget|].
    intros E. rewrite E, String.eqb_refl in Ef. discriminate.
Qed.

Lemma applyItems_reached (k : ManifestKind) (items : list ManifestItem)
      (p : JsObj.t PlatformAsset) :
  applyItems k items p
  = fold_left (fun q e => applyEntry k e q) (reachedEntries items) p.
Proof.
  revert p. induction items as [|[|e] rest IH]; intros p; cbn; [reflexivity..|].
  apply IH.
Qed.

Lemma applyEntries_wellKeyed (k : ManifestKind) (entries : list ManifestEntry)
      (p : JsObj.t PlatformAsset) :
  wellKeyed p -> wellKeyed (fold_left (fun q e => applyEntry k e q) entries p).
Proof.
  revert p. induction entries as [|e rest IH]; intros p H; [exact H|].
  cbn [fold_left]. apply IH. apply applyEntry_wellKeyed. exact H.
Qed.

Lemma decorated_name (k : ManifestKind) (entries : list ManifestEntry)
      (a : PlatformAsset) :
  pa_name (decorated k entries a) = pa_name a.
Proof.
  unfold decorated. destruct (lastEntryFor (pa_name a) entries); reflexivity.
Qed.

Lemma attachChecksum_decorated (k : ManifestKind) (e : ManifestEntry)
      (entries : list ManifestEntry) (a : PlatformAsset) :
  attachChecksum k e (decorated k entries a) = attachChecksum k e a.
Proof.
  unfold decorated. destruct (lastEntryFor (pa_name a) entries); [|reflexivity].
  destruct k; reflexivity.
Qed.

Lemma decorated_snoc (k : ManifestKind) (entries : list ManifestEntry)
      (e : ManifestEntry) (a : PlatformAsset) :
  decorated k (entries ++ [e]) a
  = if namesFile (pa_name a) e
    then attachChecksum k e a
    else decorated k entries a.
Proof.
  unfold decorated, lastEntryFor. rewrite rev_app_distr. cbn [rev app find].
  destruct (namesFile (pa_name a) e); reflexivity.
Qed.

(** The entries applied in order leave under each key the asset that was
    there, carrying the checksum fields of the last entry naming its file. *)
Lemma applyEntries_get (k : ManifestKind) (entries : list ManifestEntry)
      (p : JsObj.t PlatformAsset) (key : string) (a : PlatformAsset) :
  wellKeyed p ->
  JsObj.get key p = Some a ->
  JsObj.get key (fold_left (fun q e => applyEntry k e q) entries p)
  = Some (decorated k entries a).
Proof.
  intros Hwk Hget. induction entries as [|e entries IH] using rev_ind.
  - exact Hget.
  - rewrite fold_left_app. cbn [fold_left].
    rewrite (applyEntry_get k e _ key (decorated k entries a)
               (applyEntries_wellKeyed k entries p Hwk) IH).
    rewrite decorated_name, decorated_snoc, attachChecksum_decorated. reflexivity.
Qed.

Lemma applyEntries_no_match (k : ManifestKind) (entries : list ManifestEntry)
      (p : JsObj.t PlatformAsset) :
  (forall e key a, In e entries -> In (key, a) p -> e_url e <> Some (pa_name a)) ->
  fold_left (fun q e => applyEntry k e q) entries p = p.
Proof.
  induction entries as [|e rest IH]; intros H; [reflexivity|].
  cbn [fold_left].
  assert (applyEntry k e p = p) as E.
  { unfold applyEntry. destruct (e_url e) as [f|] eqn:Eu; [|reflexivity].
    destruct (JsString.truthy f); [|reflexivity].
    apply attachTo_no_match. intros key a Hin Hname.
    apply (H e key a (or_introl eq_refl) Hin). rewrite Eu, Hname. reflexivity. }
  rewrite E. apply IH. intros e' key a He' Hin. apply (H e' key a); [right|]; assumption.
Qed.

Lemma applyManifest_items (w : World) (k : ManifestKind) (yamls : JsObj.t string)
      (p : JsObj.t PlatformAsset) (log : list Event) :
  fst (applyManifest w k yamls (p, log)) = applyItems k (manifestItems w yamls k) p.
Proof.
  unfold applyManifest, manifestItems.
  destruct (JsObj.get (manifestName k) yamls) as [content|]; [|reflexivity].
  destruct (JsString.truthy content); [|reflexivity].
  destruct (yamlLoad w content); reflexivity.
Qed.

Lemma applyManifest_fst_log (w : World) (k : ManifestKind) (yamls : JsObj.t string)
      (pl : JsObj.t PlatformAsset * list Event) (log : list Event) :
  fst (applyManifest w k yamls pl) = fst (applyManifest w k yamls (fst pl, log)).
Proof.
  destruct pl as [p log0]. rewrite !applyManifest_items. reflexivity.
Qed.

Lemma applyManifests_platforms (w : World) (ls : LoopState) :
  platformsOf (fst (applyManifests w ls))
  = fst (applyManifest w WinManifest (ls_yaml ls)
           (applyManifest w LinuxManifest (ls_yaml ls)
              (applyManifest w MacManifest (ls_yaml ls)
                 (platformsOf (ls_latest ls), ls_log ls)))).
Proof.
  unfold applyManifests. destruct (ls_yaml ls) as [|y ys]; reflexivity.
Qed.

(** C6 (as stated) fails on a manifest with a [null] element: the entry
    for the portable image, which follows it, is never reached, and the
    asset of that name keeps no checksum after the refresh. *)
Lemma C6_counterexample_null_element :
  yamlLoad Scenario.host5 "files: [~, {url: App-2.0.0.AppImage}]"
  = YamlFiles [NullItem; EntryItem Scenario.linuxEntry]
  /\ e_url Scenario.linuxEntry = Some "App-2.0.0.AppImage"
  /\ e_sha512 Scenario.linuxEntry = Some "bGludXgtc2hhNTEy"
  /\ yamlFilesOf (latest (stateOf (refreshCache Scenario.host5 Scenario.cfg
                                                initialState)))
     = Some [("latest-linux.yml", "files: [~, {url: App-2.0.0.AppImage}]")]
  /\ exists a,
       JsObj.get "linux"
         (platformsOf (latest (stateOf (refreshCache Scenario.host5 Scenario.cfg
                                                     initialState))))
       = Some a
       /\ pa_name a = "App-2.0.0.AppImage"
       /\ pa_sha512 a = None
       /\ pa_blockMapSize a = None.
Proof.
  vm_compute. repeat split. eexists. repeat split.
Qed.

(** C6 (amended): one manifest block, run on a platform map as the
    refresh builds it, works on the entries of the file list that precede
    its first [null] element.  It keeps the keys of the map; under each
    key it leaves the asset that was there with its name, URLs, content
    type and size, carrying the [sha512] (and, for the Linux manifest
    only, the [blockMapSize]) of the last such entry whose [url] is the
    file name of the asset, and leaves untouched an asset that no such
    entry names; when no such entry names an asset of the map, the map is
    unchanged.  A refresh that caches a new version runs the three
    blocks, macOS, Linux, Windows, on the map the asset loop built, with
    the manifest texts that loop held aside. *)
Theorem C6_manifest_frame :
  (forall (w : World) (k : ManifestKind) (yamls : JsObj.t string)
          (p : JsObj.t PlatformAsset) (log : list Event),
      wellKeyed p ->
      let reached := reachedEntries (manifestItems w yamls k) in
      let p' := fst (applyManifest w k yamls (p, log)) in
      wellKeyed p'
      /\ JsObj.keys p' = JsObj.keys p
      /\ (forall key a,
            JsObj.get key p = Some a ->
            exists a',
              JsObj.get key p' = Some a'
              /\ pa_name a' = pa_name a
              /\ pa_url a' = pa_url a
              /\ pa_api_url a' = pa_api_url a
              /\ pa_content_type a' = pa_content_type a
              /\ pa_size a' = pa_size a
              /\ match lastEntryFor (pa_name a) reached with
                 | Some e =>
                     pa_sha512 a' = e_sha512 e
                     /\ pa_blockMapSize a'
                        = match k with
                          | LinuxManifest => e_blockMapSize e
                          | _ => pa_blockMapSize a
                          end
                 | None => a' = a
                 end)
      /\ ((forall e key a, In e reached -> In (key, a) p ->
                           e_url e <> Some (pa_name a)) ->
          p' = p))
  /\ (forall (w : World) (cfg : Config) (st : CacheState)
             (response : Response) (data : list Release)
             (release : Release) (l : list RawAsset),
        fetched w = Some response ->
        json response = Some (ReleaseArray data) ->
        selectRelease cfg data = Some release ->
        assets release = Some l ->
        version (latest st) <> Some (tag_name release) ->
        let ls := assetLoop w release l st in
        wellKeyed (platformsOf (ls_latest ls))
        /\ platformsOf (latest (stateOf (refreshCache w cfg st)))
           = fst (applyManifest w WinManifest (ls_yaml ls)
                    (applyManifest w LinuxManifest (ls_yaml ls)
                       (applyManifest w MacManifest (ls_yaml ls)
                          (platformsOf (ls_latest ls), ls_log ls))))).
Proof.
  split.
  - intros w k yamls p log Hwk reached p'. subst reached p'.
    rewrite applyManifest_items, applyItems_reached.
    split; [apply applyEntries_wellKeyed; exact Hwk|].
    split; [|split].
    + rewrite <- applyItems_reached.
      pose proof (applyItems_frame k (manifestItems w yamls k) p) as Hf.
      unfold frameOfMap in Hf. apply (f_equal (map fst)) in Hf.
      rewrite !map_map in Hf. exact Hf.
    + intros key a Hget.
      exists (decorated k (reachedEntries (manifestItems w yamls k)) a).
      split; [apply applyEntries_get; assumption|].
      unfold decorated.
      destruct (lastEntryFor (pa_name a) (reachedEntries (manifestItems w yamls k)));
        repeat split.
    + apply applyEntries_no_match.
  - intros w cfg st response data release l Hf Hj Hsel Hassets Hver ls. subst ls.
    rewrite (refreshCache_new_version w cfg st _ _ _ _ Hf Hj Hsel Hassets Hver).
    unfold cacheRelease, assetLoop.
    match goal with
    | |- context [applyManifests w ?x] =>
        pose proof (applyManifests_platforms w x) as Hp;
        destruct (applyManifests w x) as [s log']
    end.
    split; [apply processAssets_wellKeyed; exact wellKeyed_empty|exact Hp].
Qed.

Lemma C6_manifest_frame_witness :
  (let reached :=
     reachedEntries (manifestItems Scenario.hostLinuxManifest Scenario.heldAside
                                   LinuxManifest) in
   let p' :=
     fst (applyManifest Scenario.hostLinuxManifest LinuxManifest Scenario.heldAside
                        (Scenario.platforms2, [])) in
   wellKeyed p'
   /\ JsObj.keys p' = JsObj.keys Scenario.platforms2
   /\ (forall key a,
         JsObj.get key Scenario.platforms2 = Some a ->
         exists a',
           JsObj.get key p' = Some a'
           /\ pa_name a' = pa_name a
           /\ pa_url a' = pa_url a
           /\ pa_api_url a' = pa_api_url a
           /\ pa_content_type a' = pa_content_type a
           /\ pa_size a' = pa_size a
           /\ match lastEntryFor (pa_name a) reached with
              | Some e =>
                  pa_sha512 a' = e_sha512 e
                  /\ pa_blockMapSize a' = e_blockMapSize e
              | None => a' = a
              end)
   /\ ((forall e key a, In e reached -> In (key, a) Scenario.platforms2 ->
                        e_url e <> Some (pa_name a)) ->
       p' = Scenario.platforms2))
  /\ (let ls := assetLoop Scenario.host2 Scenario.release2
                          [Scenario.dmg2; Scenario.macYml] Scenario.state1 in
      wellKeyed (platformsOf (ls_latest ls))
      /\ platformsOf (latest (stateOf (refreshCache Scenario.host2 Scenario.cfg
                                                    Scenario.state1)))
         = fst (applyManifest Scenario.host2 WinManifest (ls_yaml ls)
                  (applyManifest Scenario.host2 LinuxManifest (ls_yaml ls)
                     (applyManifest Scenario.host2 MacManifest (ls_yaml ls)
                        (platformsOf (ls_latest ls), ls_log ls))))).
Proof.
  split.
  - apply (proj1 C6_manifest_frame Scenario.hostLinuxManifest LinuxManifest
             Scenario.heldAside Scenario.platforms2 []).
    exact platforms2_wellKeyed.
  - apply (proj2 C6_manifest_frame Scenario.host2 Scenario.cfg Scenario.state1
             (mkResponse 200 (Some (ReleaseArray [Scenario.release2; Scenario.release1])))
             [Scenario.release2; Scenario.release1]
             Scenario.release2 [Scenario.dmg2; Scenario.macYml]).
    + reflexivity.
    + reflexivity.
    + reflexivity.
    + reflexivity.
    + vm_compute. discriminate.
Defined.

Example linux_manifest_applied :
  fst (applyManifest Scenario.hostLinuxManifest LinuxManifest Scenario.heldAside
                     (Scenario.platforms2, []))
  = [ ("darwin", newPlatformAsset Scenario.dmg2);
      ("linux",
       mkPlatformAsset "App-2.0.0.AppImage" "https://api.example/assets/5"
                       "https://dl.example/v2/App-2.0.0.AppImage"
                       "application/octet-stream" (RoundedMB 61000000)
                       (Some "bGludXgtc2hhNTEy") (Some 65536)) ].
Proof. vm_compute. reflexivity. Qed.

(** C2 (as stated) fails: the refresh that caches [v2.0.0], a release
    without installer list, leaves the installer list of [v1.0.0] in the
    snapshot, which therefore differs from the snapshot a cache without
    history builds from the same release. *)
Lemma C2_counterexample_stale_releases :
  version (latest Scenario.state1) = Some "v1.0.0"
  /\ version (latest Scenario.state2) = Some "v2.0.0"
  /\ assets Scenario.release2 = Some [Scenario.dmg2; Scenario.macYml]
  /\ releasesOf (latest Scenario.state2) = releasesOf (latest Scenario.state1)
  /\ releasesOf (latest Scenario.state2)
     = Some "A1B2 https://dl.example/v1/App-1.0.0-full.nupkg 80"
  /\ latest Scenario.state2
     <> latest (stateOf (refreshCache Scenario.host2 Scenario.cfg initialState)).
Proof. vm_compute. repeat split. discriminate. Qed.

(** C2 (amended): the snapshot starts as the empty object and is updated
    in place.  A refresh that caches a new version tag returns with the
    staleness clock advanced and with version, notes and publication date
    taken from the selected release; its platform map (checksums
    included) is the one a cache without history builds from that
    release, keyed by the normalizer; and whatever installer list or
    manifest texts that release supplies are the ones the snapshot then
    holds. *)
Theorem C2_refresh_new_version
        (w : World) (cfg : Config) (st : CacheState)
        (response : Response) (data : list Release)
        (release : Release) (l : list RawAsset) :
  fetched w = Some response ->
  json response = Some (ReleaseArray data) ->
  selectRelease cfg data = Some release ->
  assets release = Some l ->
  version (latest st) <> Some (tag_name release) ->
  latest initialState = emptySnapshot
  /\ completionOf (refreshCache w cfg st) = Returned
  /\ lastUpdate (stateOf (refreshCache w cfg st)) = Some (dateNow w)
  /\ version (latest (stateOf (refreshCache w cfg st))) = Some (tag_name release)
  /\ notes (latest (stateOf (refreshCache w cfg st))) = Some (body release)
  /\ pub_date (latest (stateOf (refreshCache w cfg st)))
     = Some (published_at release)
  /\ agreesWith (latest (stateOf (refreshCache w cfg st)))
                (latest (stateOf (refreshCache w cfg initialState)))
  /\ wellKeyed (platformsOf (latest (stateOf (refreshCache w cfg st)))).
Proof.
  intros Hf Hj Hsel Hassets Hver.
  rewrite (refreshCache_new_version w cfg st _ _ _ _ Hf Hj Hsel Hassets Hver).
  rewrite (refreshCache_new_version w cfg initialState _ _ _ _ Hf Hj Hsel Hassets)
    by discriminate.
  destruct (cacheRelease_header w release l (fetchLog w) st) as [H1 [H2 [H3 [H4 H5]]]].
  split; [reflexivity|].
  repeat (split; [assumption|]).
  split; [apply cacheRelease_agrees|apply cacheRelease_wellKeyed].
Qed.

Lemma C2_refresh_new_version_witness :
  latest initialState = emptySnapshot
  /\ completionOf (refreshCache Scenario.host2 Scenario.cfg Scenario.state1) = Returned
  /\ lastUpdate Scenario.state2 = Some 2000000
  /\ version (latest Scenario.state2) = Some "v2.0.0"
  /\ notes (latest Scenario.state2) = Some "second"
  /\ pub_date (latest Scenario.state2) = Some "2024-02-01T00:00:00Z"
  /\ agreesWith (latest Scenario.state2)
                (latest (stateOf (refreshCache Scenario.host2 Scenario.cfg
                                               initialState)))
  /\ wellKeyed (platformsOf (latest Scenario.state2)).
Proof.
  apply (C2_refresh_new_version Scenario.host2 Scenario.cfg Scenario.state1
           (mkResponse 200 (Some (ReleaseArray [Scenario.release2; Scenario.release1])))
           [Scenario.release2; Scenario.release1]
           Scenario.release2 [Scenario.dmg2; Scenario.macYml]).
  - reflexivity.
  - reflexivity.
  - reflexivity.
  - reflexivity.
  - vm_compute. discriminate.
Defined.

(** Once a refresh has selected a release, the snapshot carries its tag. *)
Lemma refreshCache_selected_version
      (w : World) (cfg : Config) (st : CacheState)
      (response : Response) (data : list Release)
      (release : Release) (l : list RawAsset) :
  fetched w = Some response ->
  json response = Some (ReleaseArray data) ->
  selectRelease cfg data = Some release ->
  assets release = Some l ->
  version (latest (stateOf (refreshCache w cfg st))) = Some (tag_name release).
Proof.
  intros Hf Hj Hsel Hassets.
  destruct (optionStringEqb (version (latest st)) (tag_name release)) eqn:E.
  - apply optionStringEqb_true in E.
    rewrite (refreshCache_short_circuit w cfg st _ _ _ _ Hf Hj Hsel Hassets E).
    exact E.
  - assert (version (latest st) <> Some (tag_name release)) as Hne.
    { intros C. rewrite C in E. cbn in E. rewrite String.eqb_refl in E. discriminate. }
    rewrite (refreshCache_new_version w cfg st _ _ _ _ Hf Hj Hsel Hassets Hne).
    apply cacheRelease_header.
Qed.

(** C5 (as stated) fails when the selected release has no assets array:
    the refresh returns on that test, which precedes the comparison of
    the tags, and the staleness clock keeps its value although the tag
    of the release is the version of the snapshot. *)
Lemma C5_counterexample_no_assets_array :
  selectRelease Scenario.cfg [Scenario.release2NoAssets]
  = Some Scenario.release2NoAssets
  /\ version (latest Scenario.state2) = Some (tag_name Scenario.release2NoAssets)
  /\ lastUpdate Scenario.state2 = Some 2000000
  /\ dateNow Scenario.hostNoAssets = 5000000
  /\ refreshCache Scenario.hostNoAssets Scenario.cfg Scenario.state2
     = (Returned, Scenario.state2, [EvFetchReleases 0])
  /\ lastUpdate (stateOf (refreshCache Scenario.hostNoAssets Scenario.cfg
                                       Scenario.state2))
     <> Some (dateNow Scenario.hostNoAssets).
Proof. vm_compute. repeat split. discriminate. Qed.

(** C5 (amended): whenever the selected release has an assets array and
    carries the version tag the snapshot already has, the refresh takes
    the short-circuit: it does nothing but the release-list fetch, leaves
    the snapshot as it is and sets the staleness clock to the current
    time.  In particular a refresh run again on an unchanged release
    list, right after one that selected a release with an assets array,
    takes that path. *)
Theorem C5_refresh_short_circuit
        (w : World) (cfg : Config) (st : CacheState)
        (response : Response) (data : list Release)
        (release : Release) (l : list RawAsset) :
  fetched w = Some response ->
  json response = Some (ReleaseArray data) ->
  selectRelease cfg data = Some release ->
  assets release = Some l ->
  (version (latest st) = Some (tag_name release) ->
     refreshCache w cfg st
     = (Returned, mkCacheState (latest st) (Some (dateNow w)), fetchLog w)
     /\ forallb isFetchReleases (fetchLog w) = true)
  /\ (forall w' : World,
        fetched w' = fetched w ->
        refreshCache w' cfg (stateOf (refreshCache w cfg st))
        = (Returned,
           mkCacheState (latest (stateOf (refreshCache w cfg st)))
                        (Some (dateNow w')),
           fetchLog w')).
Proof.
  intros Hf Hj Hsel Hassets. split.
  - intros Hver. split.
    + apply (refreshCache_short_circuit w cfg st _ _ _ _ Hf Hj Hsel Hassets Hver).
    + apply retry_log_fetch_only.
  - intros w' Hsame. rewrite Hf in Hsame.
    apply (refreshCache_short_circuit w' cfg _ _ _ _ _ Hsame Hj Hsel Hassets).
    apply (refreshCache_selected_version w cfg st _ _ _ _ Hf Hj Hsel Hassets).
Qed.

(** C3 (as stated) fails: with a snapshot present but outdated and the
    release host down, [loadCache] is rejected instead of resolving to
    the stale snapshot. *)
Lemma C3_counterexample_host_down :
  truthyTime (lastUpdate Scenario.state1) = true
  /\ version (latest Scenario.state1) = Some "v1.0.0"
  /\ fst (fst (loadCache Scenario.hostDown 2000000 Scenario.cfg Scenario.state1))
     = None.
Proof. vm_compute. repeat split. Qed.

Lemma C3_loadCache_with_snapshot_witness :
  loadCache Scenario.host2 1500 Scenario.cfg Scenario.state1
  = (Some (latest Scenario.state1), Scenario.state1, [])
  /\ loadCache Scenario.hostDown 2000000 Scenario.cfg Scenario.state1
     = (None, Scenario.state1,
        [EvFetchReleases 0; EvFetchReleases 1; EvFetchReleases 2;
         EvFetchReleases 3]).
Proof.
  assert (truthyTime (lastUpdate Scenario.state1) = true) as Ht
    by (vm_compute; reflexivity).
  split.
  - apply (proj1 (C3_loadCache_with_snapshot Scenario.host2 1500 Scenario.cfg
                    Scenario.state1 Ht)).
    vm_compute; reflexivity.
  - apply (proj2 (C3_loadCache_with_snapshot Scenario.hostDown 2000000 Scenario.cfg
                    Scenario.state1 Ht)).
    + vm_compute; reflexivity.
    + intros n _. unfold attemptFails. cbn. discriminate.
Defined.

Lemma C4_refresh_fetch_exhausted_witness :
  refreshCache Scenario.hostDown Scenario.cfg Scenario.state1
  = (Thrown, Scenario.state1,
     [EvFetchReleases 0; EvFetchReleases 1; EvFetchReleases 2; EvFetchReleases 3]).
Proof.
  apply (C4_refresh_fetch_exhausted Scenario.hostDown Scenario.cfg Scenario.state1).
  intros n _. unfold attemptFails. cbn. discriminate.
Defined.

Lemma C10_refresh_nothing_to_cache_witness :
  refreshCache Scenario.hostDraftOnly Scenario.cfg Scenario.state1
  = (Returned, Scenario.state1, fetchLog Scenario.hostDraftOnly).
Proof.
  apply (C10_refresh_nothing_to_cache Scenario.hostDraftOnly Scenario.cfg
           Scenario.state1
           (mkResponse 200 (Some (ReleaseArray [Scenario.draft3])))
           (ReleaseArray [Scenario.draft3])).
  - reflexivity.
  - reflexivity.
  - cbn. right. left. intros item [E|[]]. subst. left. reflexivity.
Defined.

Lemma C5_refresh_short_circuit_witness :
  (refreshCache Scenario.host2 Scenario.cfg Scenario.state2
   = (Returned, mkCacheState (latest Scenario.state2) (Some 2000000),
      fetchLog Scenario.host2)
   /\ forallb isFetchReleases (fetchLog Scenario.host2) = true)
  /\ refreshCache Scenario.host2 Scenario.cfg
                  (stateOf (refreshCache Scenario.host2 Scenario.cfg Scenario.state1))
     = (Returned,
        mkCacheState
          (latest (stateOf (refreshCache Scenario.host2 Scenario.cfg Scenario.state1)))
          (Some 2000000),
        fetchLog Scenario.host2).
Proof.
  split.
  - apply (proj1 (C5_refresh_short_circuit Scenario.host2 Scenario.cfg Scenario.state2
             (mkResponse 200 (Some (ReleaseArray [Scenario.release2; Scenario.release1])))
             [Scenario.release2; Scenario.release1]
             Scenario.release2 [Scenario.dmg2; Scenario.macYml]
             eq_refl eq_refl eq_refl eq_refl)).
    vm_compute. reflexivity.
  - apply (proj2 (C5_refresh_short_circuit Scenario.host2 Scenario.cfg Scenario.state1
             (mkResponse 200 (Some (ReleaseArray [Scenario.release2; Scenario.release1])))
             [Scenario.release2; Scenario.release1]
             Scenario.release2 [Scenario.dmg2; Scenario.macYml]
             eq_refl eq_refl eq_refl eq_refl) Scenario.host2).
    reflexivity.
Defined.

End CacheFacts.

(** * Further properties *)

(** ** The keys of the normalizer and the alias table *)

Module KeyFacts.

Import JsString Platform Aliases MoreSpec.

Ltac in_list := solve [cbn; repeat (first [left; reflexivity | right])].

Lemma checkPlatform_produced (f k : string) :
  checkPlatform f = Some k -> In k producedKeys.
Proof.
  rewrite PlatformFacts.checkPlatform_priorityAlgorithm.
  unfold priorityAlgorithm, specSuffix.
  remember (extensionOf f) as e eqn:He. clear He.
  destruct (String.eqb e "dmg").
  { destruct (includes "arm64" f), (includes "aarch64" f);
      intros H; inversion H; in_list. }
  destruct (String.eqb e "AppImage").
  { destruct (includes "arm64" f), (includes "aarch64" f);
      intros H; inversion H; in_list. }
  destruct (String.eqb e "zip" && (includes "mac" f || includes "darwin" f)).
  { destruct (includes "arm64" f), (includes "aarch64" f);
      intros H; inversion H; in_list. }
  destruct (String.eqb e "exe").
  { intros H; inversion H; in_list. }
  destruct (String.eqb e "deb") eqn:Ed.
  { apply String.eqb_eq in Ed. subst e.
    destruct (includes "arm64" f), (includes "aarch64" f);
      intros H; inversion H; in_list. }
  destruct (String.eqb e "rpm") eqn:Er; cbn [orb]; [|discriminate].
  apply String.eqb_eq in Er. subst e.
  destruct (includes "arm64" f), (includes "aarch64" f);
    intros H; inversion H; in_list.
Qed.

Lemma produced_is_key (k : string) :
  In k producedKeys -> In k (JsObj.keys aliases).
Proof.
  intros H. cbn in H.
  repeat (destruct H as [H|H]; [subst k; vm_compute; tauto|]).
  contradiction.
Qed.

(** X1: whatever the normalizer returns is one of nine keys, and each of
    them is a key of the alias table, so that the alias resolver returns
    it unchanged. *)
Theorem X1_checkPlatform_canonical (f k : string) :
  checkPlatform f = Some k ->
  In k producedKeys /\ checkAlias k = Some k.
Proof.
  intros H. apply checkPlatform_produced in H. split; [exact H|].
  apply AliasesFacts.checkAliasIn_key. apply produced_is_key. exact H.
Qed.

Lemma X1_checkPlatform_canonical_witness :
  In "deb_arm64"%string producedKeys /\ checkAlias "deb_arm64" = Some "deb_arm64"%string.
Proof.
  apply (X1_checkPlatform_canonical "app_1.0_aarch64.deb" "deb_arm64").
  vm_compute. reflexivity.
Defined.

(** *** The scan of the alias lists *)

Lemma scan_Some (tbl : JsObj.t (list string)) (p k : string) :
  scan tbl p = Some k -> exists l, In (k, l) tbl /\ In p l.
Proof.
  induction tbl as [|[g l] rest IH]; cbn [scan]; [discriminate|].
  destruct (list_includes l p) eqn:E.
  - intros H. inversion H; subst. exists l. split; [left; reflexivity|].
    apply AliasesFacts.list_includes_In. exact E.
  - intros H. destruct (IH H) as [l' [Hin Hp]].
    exists l'. split; [right; exact Hin|exact Hp].
Qed.

Lemma scan_None (tbl : JsObj.t (list string)) (p : string) :
  scan tbl p = None <-> forall k l, In (k, l) tbl -> ~ In p l.
Proof.
  induction tbl as [|[g l] rest IH]; cbn [scan].
  - split; [intros _ k l []|reflexivity].
  - destruct (list_includes l p) eqn:E.
    + split; [discriminate|]. intros H. exfalso.
      apply (H g l (or_introl eq_refl)).
      apply AliasesFacts.list_includes_In. exact E.
    + rewrite IH. split.
      * intros H k l' [Hk|Hk].
        -- inversion Hk; subst. intros Hp.
           apply AliasesFacts.list_includes_In in Hp. congruence.
        -- exact (H k l' Hk).
      * intros H k l' Hk. apply (H k l'). right. exact Hk.
Qed.

Lemma In_keys {V : Type} (o : JsObj.t V) (k : string) (v : V) :
  In (k, v) o -> In k (JsObj.keys o).
Proof.
  intros H. unfold JsObj.keys. apply in_map_iff. exists (k, v). split; [reflexivity|exact H].
Qed.

(** X2: the alias resolver answers "not recognized" exactly for the
    tokens that are neither a property of the table object nor listed as
    an alias; and when it answers with a key, that key is the token itself
    or a key whose list declares the token. *)
Theorem X2_checkAlias_characterised (p : string) :
  (checkAlias p = None <->
     defined aliases p = false /\ forall k l, In (k, l) aliases -> ~ In p l)
  /\ (forall k, checkAlias p = Some k ->
        k = p \/ exists l, In (k, l) aliases /\ In p l).
Proof.
  unfold checkAlias, checkAliasIn. split.
  - destruct (defined aliases p).
    + split; [discriminate|]. intros [H _]. discriminate.
    + rewrite scan_None. split; [intros H; split; [reflexivity|exact H]|].
      intros [_ H]. exact H.
  - intros k. destruct (defined aliases p).
    + intros H. inversion H. left. reflexivity.
    + intros H. right. apply scan_Some. exact H.
Qed.

Lemma X2_checkAlias_characterised_witness :
  (defined aliases "solaris" = false
   /\ forall k l, In (k, l) aliases -> ~ In "solaris"%string l)
  /\ ("darwin"%string = "osx"%string
      \/ exists l, In ("darwin"%string, l) aliases /\ In "osx"%string l).
Proof.
  split.
  - apply (proj1 (proj1 (X2_checkAlias_characterised "solaris"))).
    vm_compute. reflexivity.
  - apply (proj2 (X2_checkAlias_characterised "osx") "darwin").
    vm_compute. reflexivity.
Defined.

(** X3: the alias resolver is idempotent on every input: what it returns
    for any token is returned unchanged when resolved again. *)
Theorem X3_checkAlias_idempotent (p k : string) :
  checkAlias p = Some k -> checkAlias k = Some k.
Proof.
  unfold checkAlias, checkAliasIn.
  destruct (defined aliases p) eqn:E.
  - intros H. inversion H; subst. rewrite E. reflexivity.
  - intros H. destruct (scan_Some _ _ _ H) as [l [Hin _]].
    unfold defined. rewrite (AliasesFacts.has_of_key aliases k (In_keys _ _ _ Hin)).
    reflexivity.
Qed.

Lemma X3_checkAlias_idempotent_witness :
  checkAlias "win32_arm64" = Some "win32_arm64"%string.
Proof.
  apply (X3_checkAlias_idempotent "windows_arm64" "win32_arm64").
  vm_compute. reflexivity.
Defined.

End KeyFacts.

(** ** The load-time derivation of the [_arm64] entries *)

Module ExtendFacts.

Import Aliases MoreSpec.
Local Open Scope list_scope.














End ExtendFacts.

(** ** The refresh cycle *)

Module RefreshFacts.

Import Cache CacheSpec MoreSpec.
Local Open Scope Z_scope.
Local Open Scope list_scope.

(** *** The retried fetch *)

Lemma retry_outcome {A : Type} (op : nat -> option A) (retries attempt : nat) :
  match fst (retry op attempt retries) with
  | Some r =>
      exists i, (i <= retries)%nat
                /\ op (attempt + i)%nat = Some r
                /\ (forall j, (j < i)%nat -> op (attempt + j)%nat = None)
                /\ snd (retry op attempt retries)
                   = map EvFetchReleases (seq attempt (S i))
  | None =>
      (forall i, (i <= retries)%nat -> op (attempt + i)%nat = None)
      /\ snd (retry op attempt retries)
         = map EvFetchReleases (seq attempt (S retries))
  end.
Proof.
  revert attempt. induction retries as [|n IH]; intros attempt; cbn [retry].
  - destruct (op attempt) as [r|] eqn:E; cbn [fst snd].
    + exists O. rewrite Nat.add_0_r. repeat split; [lia|exact E|intros j Hj; lia].
    + split; [|reflexivity]. intros i Hi. assert (i = O) by lia. subst.
      rewrite Nat.add_0_r. exact E.
  - destruct (op attempt) as [r|] eqn:E; cbn [fst snd].
    + exists O. rewrite Nat.add_0_r. repeat split; [lia|exact E|intros j Hj; lia].
    + specialize (IH (S attempt)).
      destruct (retry op (S attempt) n) as [[r|] log]; cbn [fst snd] in *.
      * destruct IH as [i [Hi [Hop [Hbefore Hlog]]]].
        exists (S i). repeat split.
        -- lia.
        -- rewrite Nat.add_succ_r. exact Hop.
        -- intros [|j] Hj; [rewrite Nat.add_0_r; exact E|].
           rewrite Nat.add_succ_r. apply Hbefore. lia.
        -- rewrite Hlog. reflexivity.
      * destruct IH as [Hall Hlog]. split.
        -- intros [|i] Hi; [rewrite Nat.add_0_r; exact E|].
           rewrite Nat.add_succ_r. apply Hall. lia.
        -- rewrite Hlog. reflexivity.
Qed.

(** X5: the release list is requested at least once and at most four
    times per cycle; the cycle gets the response of the first attempt that
    succeeds, having made no attempt after it, and gets none exactly when
    all four attempts fail. *)
Theorem X5_release_list_retry (w : World) :
  (1 <= List.length (fetchLog w) <= 4)%nat
  /\ (fetched w = None <->
        forall n, (n <= 3)%nat -> fetchReleaseList w n = None)
  /\ (forall r, fetched w = Some r ->
        exists i, (i <= 3)%nat
                  /\ fetchReleaseList w i = Some r
                  /\ (forall j, (j < i)%nat -> fetchReleaseList w j = None)
                  /\ fetchLog w = map EvFetchReleases (seq 0 (S i))).
Proof.
  pose proof (retry_outcome (fetchReleaseList w) 3 0) as H.
  unfold fetched, fetchLog.
  destruct (fst (retry (fetchReleaseList w) 0 3)) as [r|].
  - destruct H as [i [Hi [Hop [Hbefore Hlog]]]]. cbn [Nat.add] in *.
    split; [|split].
    + rewrite Hlog, length_map, length_seq. lia.
    + split; [discriminate|]. intros Hall. rewrite (Hall i Hi) in Hop. discriminate.
    + intros r' Hr. inversion Hr; subst r'. exists i. repeat split; assumption.
  - destruct H as [Hall Hlog]. cbn [Nat.add] in *. split; [|split].
    + rewrite Hlog, length_map, length_seq. lia.
    + split; [intros _; exact Hall|reflexivity].
    + intros r' Hr. discriminate.
Qed.

(** *** A refresh that cannot get the release list *)

Lemma refreshCache_no_list (w : World) (cfg : Config) (st : CacheState) :
  fetched w = None \/ (exists r, fetched w = Some r /\ json r = None) ->
  refreshCache w cfg st = (Thrown, st, fetchLog w).
Proof.
  unfold refreshCache. rewrite CacheFacts.retry_fetched_log.
  intros [H|[r [H Hj]]]; rewrite H; [reflexivity|]. rewrite Hj. reflexivity.
Qed.

(** X6: when the release list cannot be fetched within the retry budget,
    or is fetched but its body cannot be parsed, the refresh throws
    before it touches the cache: the snapshot and the staleness clock are
    as they were, and nothing but the release list was requested. *)
Theorem X6_refresh_without_release_list (w : World) (cfg : Config) (st : CacheState) :
  fetched w = None \/ (exists r, fetched w = Some r /\ json r = None) ->
  refreshCache w cfg st = (Thrown, st, fetchLog w)
  /\ forallb isFetchReleases (fetchLog w) = true.
Proof.
  intros H. split; [apply refreshCache_no_list; exact H|].
  apply CacheFacts.retry_log_fetch_only.
Qed.

Lemma X6_refresh_without_release_list_witness :
  refreshCache Scenario.hostUnparsable Scenario.cfg Scenario.state2
  = (Thrown, Scenario.state2, fetchLog Scenario.hostUnparsable)
  /\ forallb isFetchReleases (fetchLog Scenario.hostUnparsable) = true.
Proof.
  apply (X6_refresh_without_release_list Scenario.hostUnparsable Scenario.cfg
           Scenario.state2).
  right. exists (mkResponse 200 None). split; reflexivity.
Defined.

(** *** What every reachable state satisfies *)

Lemma processAsset_platforms_set (w : World) (ls : LoopState) (asset : RawAsset) :
  platforms (ls_latest ls) <> None ->
  platforms (ls_latest (processAsset w ls asset)) <> None.
Proof.
  intros H. unfold processAsset.
  destruct (String.eqb (name asset) "RELEASES").
  - destruct (cacheReleaseList w (browser_download_url asset)); exact H.
  - destruct (JsString.endsWith ".yml" (name asset)).
    + destruct (fetchText w (browser_download_url asset)); exact H.
    + destruct (Platform.checkPlatform (name asset)); [discriminate|exact H].
Qed.

Lemma processAssets_platforms_set (w : World) (l : list RawAsset) (ls : LoopState) :
  platforms (ls_latest ls) <> None ->
  platforms (ls_latest (processAssets w ls l)) <> None.
Proof.
  revert ls. induction l as [|a rest IH]; intros ls H; [exact H|].
  cbn [processAssets fold_left]. apply IH. apply processAsset_platforms_set. exact H.
Qed.

Lemma applyManifests_platforms_set (w : World) (ls : LoopState) :
  platforms (ls_latest ls) <> None ->
  platforms (fst (applyManifests w ls)) <> None.
Proof.
  intros H. unfold applyManifests.
  destruct (ls_yaml ls); [exact H|discriminate].
Qed.

Lemma cacheRelease_platforms_set (w : World) (release : Release) (l : list RawAsset)
      (log : list Event) (st : CacheState) :
  platforms (latest (stateOf (cacheRelease w release l log st))) <> None.
Proof.
  unfold cacheRelease.
  match goal with
  | |- context [applyManifests w ?ls] =>
      pose proof (applyManifests_platforms_set w ls) as H;
      destruct (applyManifests w ls) as [s log']
  end.
  apply H. apply processAssets_platforms_set. discriminate.
Qed.

Lemma refreshCache_settled (w : World) (cfg : Config) (st : CacheState) :
  settled st -> settled (stateOf (refreshCache w cfg st)).
Proof.
  intros Hst. pose proof Hst as [Hwk Hver]. unfold refreshCache.
  destruct (retry (fetchReleaseList w) 0 3) as [[response|] log]; [|exact Hst].
  destruct (json response) as [[|[|r0 rest]]|]; try exact Hst.
  destruct (selectRelease cfg (r0 :: rest)) as [release|]; [|exact Hst].
  destruct (assets release) as [l|]; [|exact Hst].
  destruct (optionStringEqb (version (latest st)) (tag_name release)) eqn:E.
  - exact Hst.
  - split; [apply CacheFacts.cacheRelease_wellKeyed|].
    intros _. apply cacheRelease_platforms_set.
Qed.

Lemma reachable_settled (cfg : Config) (st : CacheState) :
  reachable cfg st -> settled st.
Proof.
  induction 1 as [|w st Hr IH].
  - split; [exact CacheFacts.wellKeyed_empty|].
    intros H. exfalso. apply H. reflexivity.
  - apply refreshCache_settled. exact IH.
Qed.

Lemma wellKeyed_keys_produced (p : JsObj.t PlatformAsset) (k : string) :
  wellKeyed p -> In k (JsObj.keys p) -> In k producedKeys.
Proof.
  intros [_ Hkey] Hin. unfold JsObj.keys in Hin.
  apply in_map_iff in Hin as [[k' a] [E Hin]]. cbn in E. subst k'.
  apply (KeyFacts.checkPlatform_produced (pa_name a) k). apply Hkey. exact Hin.
Qed.

Lemma get_None_of_not_key {V : Type} (o : JsObj.t V) (k : string) :
  ~ In k (JsObj.keys o) -> JsObj.get k o = None.
Proof.
  intros H. destruct (JsObj.get k o) as [v|] eqn:E; [|reflexivity].
  exfalso. apply H. apply (KeyFacts.In_keys o k v). apply JsObjFacts.get_In. exact E.
Qed.

(** X7: in every state a cache reaches by refreshes, the platform map
    holds no key twice, files every asset under the key the normalizer
    gives its name, and has its keys among the nine the normalizer
    produces; and a snapshot that has a version has a platform map. *)
Theorem X7_reachable_state_invariant (cfg : Config) (st : CacheState) :
  reachable cfg st ->
  wellKeyed (platformsOf (latest st))
  /\ (forall k, In k (JsObj.keys (platformsOf (latest st))) -> In k producedKeys)
  /\ (version (latest st) <> None -> platforms (latest st) <> None).
Proof.
  intros H. destruct (reachable_settled cfg st H) as [Hwk Hver].
  split; [exact Hwk|split; [|exact Hver]].
  intros k. apply wellKeyed_keys_produced. exact Hwk.
Qed.

Lemma state2_reachable : reachable Scenario.cfg Scenario.state2.
Proof.
  unfold Scenario.state2, Scenario.state1.
  apply reach_refresh. apply reach_refresh. apply reach_initial.
Qed.

Lemma X7_reachable_state_invariant_witness :
  wellKeyed (platformsOf (latest Scenario.state2))
  /\ (forall k, In k (JsObj.keys (platformsOf (latest Scenario.state2))) ->
                In k producedKeys)
  /\ (version (latest Scenario.state2) <> None ->
      platforms (latest Scenario.state2) <> None).
Proof.
  apply (X7_reachable_state_invariant Scenario.cfg Scenario.state2).
  exact state2_reachable.
Defined.

End RefreshFacts.

(** ** The asset loop *)

Module AssetFacts.

Import Cache CacheSpec MoreSpec.
Local Open Scope Z_scope.
Local Open Scope list_scope.

Lemma get_set_same {V : Type} (o : JsObj.t V) (k : string) (v : V) :
  JsObj.get k (JsObj.set k v o) = Some v.
Proof.
  induction o as [|[k0 v0] rest IH]; cbn.
  - rewrite String.eqb_refl. reflexivity.
  - destruct (String.eqb k k0) eqn:E; cbn; [rewrite String.eqb_refl; reflexivity|].
    rewrite E. exact IH.
Qed.

Lemma get_set_other {V : Type} (o : JsObj.t V) (k k' : string) (v : V) :
  k <> k' -> JsObj.get k (JsObj.set k' v o) = JsObj.get k o.
Proof.
  intros Hne. apply String.eqb_neq in Hne.
  induction o as [|[k0 v0] rest IH]; cbn.
  - rewrite Hne. reflexivity.
  - destruct (String.eqb k' k0) eqn:E; cbn.
    + apply String.eqb_eq in E. subst k0. rewrite Hne. reflexivity.
    + destruct (String.eqb k k0); [reflexivity|exact IH].
Qed.

Lemma get_frameOfMap (p : JsObj.t PlatformAsset) (k : string) :
  JsObj.get k (frameOfMap p) = option_map frameOf (JsObj.get k p).
Proof.
  induction p as [|[k0 a] rest IH]; [reflexivity|].
  cbn. destruct (String.eqb k k0); [reflexivity|exact IH].
Qed.

(** One iteration files the asset under its key, or leaves the map alone. *)
Lemma processAsset_get (w : World) (ls : LoopState) (asset : RawAsset) (k : string) :
  JsObj.get k (platformsOf (ls_latest (processAsset w ls asset)))
  = if filedUnder k asset
    then Some (newPlatformAsset asset)
    else JsObj.get k (platformsOf (ls_latest ls)).
Proof.
  unfold processAsset, filedUnder, isDownload.
  destruct (String.eqb (name asset) "RELEASES").
  - destruct (cacheReleaseList w (browser_download_url asset)); reflexivity.
  - destruct (JsString.endsWith ".yml" (name asset)).
    + destruct (fetchText w (browser_download_url asset)); reflexivity.
    + cbn [negb andb].
      destruct (Platform.checkPlatform (name asset)) as [k'|]; [|reflexivity].
      cbn [ls_latest platformsOf setPlatforms platforms].
      destruct (String.eqb k' k) eqn:E.
      * apply String.eqb_eq in E. subst k'. apply get_set_same.
      * apply get_set_other. intros ->. rewrite String.eqb_refl in E. discriminate.
Qed.

Lemma processAssets_get (w : World) (l : list RawAsset) (ls : LoopState) (k : string) :
  JsObj.get k (platformsOf (ls_latest (processAssets w ls l)))
  = match lastFor k l with
    | Some asset => Some (newPlatformAsset asset)
    | None => JsObj.get k (platformsOf (ls_latest ls))
    end.
Proof.
  induction l as [|asset l IH] using rev_ind; [reflexivity|].
  unfold processAssets, lastFor in *.
  rewrite fold_left_app, rev_app_distr. cbn [fold_left rev app find].
  rewrite processAsset_get.
  destruct (filedUnder k asset); [reflexivity|exact IH].
Qed.

Lemma applyManifest_frame (w : World) (k : ManifestKind) (yamls : JsObj.t string)
      (pl : JsObj.t PlatformAsset * list Event) :
  frameOfMap (fst (applyManifest w k yamls pl)) = frameOfMap (fst pl).
Proof.
  destruct pl as [p log]. unfold applyManifest. cbn [fst].
  destruct (JsObj.get (manifestName k) yamls) as [content|]; [|reflexivity].
  destruct (JsString.truthy content); [|reflexivity].
  destruct (yamlLoad w content); cbn [fst]; try reflexivity.
  apply CacheFacts.applyItems_frame.
Qed.

Lemma applyManifests_frame (w : World) (ls : LoopState) :
  frameOfMap (platformsOf (fst (applyManifests w ls)))
  = frameOfMap (platformsOf (ls_latest ls)).
Proof.
  unfold applyManifests. destruct (ls_yaml ls); [reflexivity|].
  cbn [fst platformsOf setPlatforms platforms].
  rewrite !applyManifest_frame. reflexivity.
Qed.

Lemma cacheRelease_frame (w : World) (release : Release) (l : list RawAsset)
      (log : list Event) (st : CacheState) (k : string) :
  option_map frameOf
    (JsObj.get k (platformsOf (latest (stateOf (cacheRelease w release l log st)))))
  = option_map (fun asset => frameOf (newPlatformAsset asset)) (lastFor k l).
Proof.
  unfold cacheRelease.
  match goal with
  | |- context [applyManifests w ?ls] =>
      pose proof (applyManifests_frame w ls) as H;
      destruct (applyManifests w ls) as [s log']
  end.
  cbn [fst stateOf snd latest] in *.
  rewrite <- get_frameOfMap, H, get_frameOfMap, processAssets_get.
  destruct (lastFor k l); reflexivity.
Qed.

(** X8: after a refresh that caches a new version, the platform map has
    under each key the last asset of the listing, manifests and the
    installer list set aside, that the normalizer files under that key:
    its name, its two URLs, its content type and its size; a key for which
    the listing has no such asset is absent. *)
Theorem X8_last_asset_wins
        (w : World) (cfg : Config) (st : CacheState)
        (response : Response) (data : list Release)
        (release : Release) (l : list RawAsset) (k : string) :
  fetched w = Some response ->
  json response = Some (ReleaseArray data) ->
  selectRelease cfg data = Some release ->
  assets release = Some l ->
  version (latest st) <> Some (tag_name release) ->
  option_map frameOf
    (JsObj.get k (platformsOf (latest (stateOf (refreshCache w cfg st)))))
  = option_map
      (fun asset => (name asset, url asset, browser_download_url asset,
                     content_type asset, RoundedMB (size asset)))
      (lastFor k l).
Proof.
  intros Hf Hj Hsel Hassets Hver.
  rewrite (CacheFacts.refreshCache_new_version w cfg st _ _ _ _ Hf Hj Hsel Hassets Hver).
  apply cacheRelease_frame.
Qed.

Lemma X8_last_asset_wins_witness :
  option_map frameOf
    (JsObj.get "darwin"
       (platformsOf (latest (stateOf (refreshCache Scenario.host4 Scenario.cfg
                                                   Scenario.state1)))))
  = option_map
      (fun asset => (name asset, url asset, browser_download_url asset,
                     content_type asset, RoundedMB (size asset)))
      (lastFor "darwin" [Scenario.dmg1; Scenario.macYml; Scenario.dmg2]).
Proof.
  apply (X8_last_asset_wins Scenario.host4 Scenario.cfg Scenario.state1
           (mkResponse 200 (Some (ReleaseArray [Scenario.release4])))
           [Scenario.release4] Scenario.release4
           [Scenario.dmg1; Scenario.macYml; Scenario.dmg2] "darwin").
  - reflexivity.
  - reflexivity.
  - reflexivity.
  - reflexivity.
  - vm_compute. discriminate.
Defined.

Example last_darwin_asset :
  lastFor "darwin" [Scenario.dmg1; Scenario.macYml; Scenario.dmg2]
  = Some Scenario.dmg2.
Proof. vm_compute. reflexivity. Qed.

End AssetFacts.

(** ** Applying manifest entries *)

Module ManifestFacts.

Import Cache CacheSpec MoreSpec.
Local Open Scope Z_scope.
Local Open Scope list_scope.

Lemma attachChecksum_twice (k : ManifestKind) (e : ManifestEntry) (a : PlatformAsset) :
  attachChecksum k e (attachChecksum k e a) = attachChecksum k e a.
Proof. destruct k; reflexivity. Qed.

Lemma attachTo_twice (k : ManifestKind) (e : ManifestEntry) (f : string)
      (p : JsObj.t PlatformAsset) :
  attachTo k e f (attachTo k e f p) = attachTo k e f p.
Proof.
  induction p as [|[k0 d] rest IH]; [reflexivity|].
  cbn [attachTo]. destruct (String.eqb (pa_name d) f) eqn:E; cbn [attachTo].
  - cbn [attachChecksum pa_name]. rewrite E.
    change (mkPlatformAsset (pa_name d) (pa_api_url d) (pa_url d) (pa_content_type d)
              (pa_size d) (e_sha512 e)
              match k with
              | LinuxManifest => e_blockMapSize e
              | _ => pa_blockMapSize d
              end) with (attachChecksum k e d).
    rewrite attachChecksum_twice. reflexivity.
  - rewrite E, IH. reflexivity.
Qed.

(** X9: applying a manifest entry a second time changes nothing. *)
Theorem X9_applyEntry_idempotent (k : ManifestKind) (e : ManifestEntry)
        (p : JsObj.t PlatformAsset) :
  applyEntry k e (applyEntry k e p) = applyEntry k e p.
Proof.
  unfold applyEntry. destruct (e_url e) as [f|]; [|reflexivity].
  destruct (JsString.truthy f); [|reflexivity].
  apply attachTo_twice.
Qed.

Lemma attachTo_commute (k1 k2 : ManifestKind) (e1 e2 : ManifestEntry)
      (f1 f2 : string) (p : JsObj.t PlatformAsset) :
  f1 <> f2 ->
  attachTo k1 e1 f1 (attachTo k2 e2 f2 p) = attachTo k2 e2 f2 (attachTo k1 e1 f1 p).
Proof.
  intros Hne. induction p as [|[k0 d] rest IH]; [reflexivity|].
  cbn [attachTo].
  destruct (String.eqb (pa_name d) f1) eqn:E1, (String.eqb (pa_name d) f2) eqn:E2;
    cbn [attachTo attachChecksum pa_name]; rewrite ?E1, ?E2; try reflexivity.
  - apply String.eqb_eq in E1, E2. congruence.
  - rewrite IH. reflexivity.
Qed.

(** X10: two manifest entries that refer to different file names can be
    applied in either order, whatever manifests they come from. *)
Theorem X10_applyEntry_commute (k1 k2 : ManifestKind) (e1 e2 : ManifestEntry)
        (p : JsObj.t PlatformAsset) :
  e_url e1 <> e_url e2 ->
  applyEntry k1 e1 (applyEntry k2 e2 p) = applyEntry k2 e2 (applyEntry k1 e1 p).
Proof.
  intros Hne. unfold applyEntry.
  destruct (e_url e1) as [f1|], (e_url e2) as [f2|]; try reflexivity.
  destruct (JsString.truthy f1), (JsString.truthy f2); try reflexivity.
  apply attachTo_commute. congruence.
Qed.

Lemma X10_applyEntry_commute_witness :
  applyEntry LinuxManifest Scenario.linuxEntry
             (applyEntry MacManifest Scenario.macEntry Scenario.platforms2)
  = applyEntry MacManifest Scenario.macEntry
               (applyEntry LinuxManifest Scenario.linuxEntry Scenario.platforms2).
Proof.
  apply (X10_applyEntry_commute LinuxManifest MacManifest
           Scenario.linuxEntry Scenario.macEntry Scenario.platforms2).
  vm_compute. discriminate.
Defined.

(** X11: a [null] element in the file list of a manifest ends its
    application: what follows it is never applied, and the result is the
    one of the elements before it. *)
Theorem X11_null_item_truncates (k : ManifestKind) (before after : list ManifestItem)
        (p : JsObj.t PlatformAsset) :
  applyItems k (before ++ NullItem :: after) p = applyItems k before p.
Proof.
  revert p. induction before as [|[|e] rest IH]; intros p; cbn [app applyItems].
  - reflexivity.
  - reflexivity.
  - apply IH.
Qed.

End ManifestFacts.

(** ** The public accessor *)

Module LoadFacts.

Import Cache CacheSpec MoreSpec.
Local Open Scope Z_scope.
Local Open Scope list_scope.

Lemma processAsset_log (w : World) (ls : LoopState) (asset : RawAsset) :
  exists more, ls_log (processAsset w ls asset) = ls_log ls ++ more.
Proof.
  unfold processAsset.
  destruct (String.eqb (name asset) "RELEASES").
  - destruct (cacheReleaseList w (browser_download_url asset)); eexists; reflexivity.
  - destruct (JsString.endsWith ".yml" (name asset)).
    + destruct (fetchText w (browser_download_url asset)); eexists; reflexivity.
    + destruct (Platform.checkPlatform (name asset)); exists [];
        rewrite app_nil_r; reflexivity.
Qed.

Lemma processAssets_log (w : World) (l : list RawAsset) (ls : LoopState) :
  exists more, ls_log (processAssets w ls l) = ls_log ls ++ more.
Proof.
  revert ls. induction l as [|asset rest IH]; intros ls.
  - exists []. rewrite app_nil_r. reflexivity.
  - cbn [processAssets fold_left].
    destruct (IH (processAsset w ls asset)) as [m2 H2].
    destruct (processAsset_log w ls asset) as [m1 H1].
    exists (m1 ++ m2). unfold processAssets in H2. rewrite H2, H1, app_assoc. reflexivity.
Qed.

Lemma applyManifest_log (w : World) (k : ManifestKind) (yamls : JsObj.t string)
      (pl : JsObj.t PlatformAsset * list Event) :
  exists more, snd (applyManifest w k yamls pl) = snd pl ++ more.
Proof.
  destruct pl as [p log]. unfold applyManifest. cbn [snd].
  destruct (JsObj.get (manifestName k) yamls) as [content|];
    [|exists []; rewrite app_nil_r; reflexivity].
  destruct (JsString.truthy content); [|exists []; rewrite app_nil_r; reflexivity].
  destruct (yamlLoad w content); eexists; reflexivity.
Qed.

Lemma applyManifests_log (w : World) (ls : LoopState) :
  exists more, snd (applyManifests w ls) = ls_log ls ++ more.
Proof.
  unfold applyManifests. destruct (ls_yaml ls) as [|y ys].
  - exists []. rewrite app_nil_r. reflexivity.
  - cbn [snd].
    match goal with
    | |- context [applyManifest w WinManifest ?y (applyManifest w LinuxManifest ?y
                    (applyManifest w MacManifest ?y ?pl0))] =>
        destruct (applyManifest_log w MacManifest y pl0) as [m1 H1];
        destruct (applyManifest_log w LinuxManifest y
                    (applyManifest w MacManifest y pl0)) as [m2 H2];
        destruct (applyManifest_log w WinManifest y
                    (applyManifest w LinuxManifest y
                       (applyManifest w MacManifest y pl0))) as [m3 H3]
    end.
    exists (m1 ++ m2 ++ m3). rewrite H3, H2, H1. cbn [snd].
    rewrite !app_assoc. reflexivity.
Qed.

Lemma cacheRelease_log (w : World) (release : Release) (l : list RawAsset)
      (log : list Event) (st : CacheState) :
  exists more, snd (cacheRelease w release l log st) = log ++ more.
Proof.
  unfold cacheRelease.
  match goal with
  | |- context [applyManifests w (processAssets w ?ls0 l)] =>
      destruct (applyManifests_log w (processAssets w ls0 l)) as [m2 H2];
      destruct (processAssets_log w l ls0) as [m1 H1];
      destruct (applyManifests w (processAssets w ls0 l)) as [s log']
  end.
  cbn [snd ls_log] in *. exists (m1 ++ m2). rewrite H2, H1, app_assoc. reflexivity.
Qed.

Lemma fetchLog_head (w : World) :
  exists more, fetchLog w = EvFetchReleases 0 :: more.
Proof.
  unfold fetchLog. cbn [retry].
  destruct (fetchReleaseList w 0); [eexists; reflexivity|].
  destruct (fetchReleaseList w 1); [eexists; reflexivity|].
  destruct (fetchReleaseList w 2); [eexists; reflexivity|].
  destruct (fetchReleaseList w 3); eexists; reflexivity.
Qed.

(** Every refresh begins with the request for the release list. *)
Lemma refreshCache_log_head (w : World) (cfg : Config) (st : CacheState) :
  exists more, snd (refreshCache w cfg st) = EvFetchReleases 0 :: more.
Proof.
  destruct (fetchLog_head w) as [m0 H0].
  unfold refreshCache. rewrite CacheFacts.retry_fetched_log.
  destruct (fetched w) as [response|]; [|exists m0; exact H0].
  destruct (json response) as [[|[|r0 rest]]|]; try (exists m0; exact H0).
  destruct (selectRelease cfg (r0 :: rest)) as [release|]; [|exists m0; exact H0].
  destruct (assets release) as [l|]; [|exists m0; exact H0].
  destruct (optionStringEqb (version (latest st)) (tag_name release));
    [exists m0; exact H0|].
  destruct (cacheRelease_log w release l (fetchLog w) st) as [m1 H1].
  exists (m0 ++ m1). rewrite H1, H0. reflexivity.
Qed.

Lemma loadCache_fresh (w : World) (now : Z) (cfg : Config) (st : CacheState) :
  needsRefresh now cfg st = false ->
  loadCache w now cfg st = (Some (latest st), st, []).
Proof.
  unfold needsRefresh, loadCache. intros H. rewrite H. reflexivity.
Qed.

Lemma loadCache_refreshes (w : World) (now : Z) (cfg : Config) (st : CacheState) :
  needsRefresh now cfg st = true ->
  exists more, snd (loadCache w now cfg st) = EvFetchReleases 0 :: more.
Proof.
  unfold needsRefresh, loadCache. intros H. rewrite H.
  destruct (refreshCache_log_head w cfg st) as [more Hm].
  destruct (refreshCache w cfg st) as [[[|] st'] log]; exists more; exact Hm.
Qed.

Lemma needsRefresh_false (now : Z) (cfg : Config) (st : CacheState) :
  needsRefresh now cfg st = false <->
  exists t, lastUpdate st = Some t /\ t <> 0 /\ now - t <= intervalMs cfg.
Proof.
  unfold needsRefresh, isOutdated, truthyTime.
  destruct (lastUpdate st) as [t|].
  - destruct (Z.eqb_spec t 0) as [E|E]; cbn [negb orb andb].
    + split; [discriminate|]. intros [t' [Ht [Hz _]]]. inversion Ht; subst. contradiction.
    + rewrite Z.ltb_ge. split.
      * intros H. exists t. repeat split; assumption.
      * intros [t' [Ht [_ Hle]]]. inversion Ht; subst. exact Hle.
  - cbn. split; [discriminate|]. intros [t [Ht _]]. discriminate.
Qed.

(** X12: [loadCache] answers from memory, without any network request and
    without touching the state, exactly when the staleness clock is set,
    is not zero, and is at most the configured interval old; in every
    other case its first action is the request for the release list. *)
Theorem X12_loadCache_freshness (w : World) (now : Z) (cfg : Config) (st : CacheState) :
  ((exists t, lastUpdate st = Some t /\ t <> 0 /\ now - t <= intervalMs cfg) ->
     loadCache w now cfg st = (Some (latest st), st, []))
  /\ (~ (exists t, lastUpdate st = Some t /\ t <> 0 /\ now - t <= intervalMs cfg) ->
      exists more, snd (loadCache w now cfg st) = EvFetchReleases 0 :: more).
Proof.
  split.
  - intros H. apply loadCache_fresh. apply needsRefresh_false. exact H.
  - intros H. apply loadCache_refreshes.
    destruct (needsRefresh now cfg st) eqn:E; [reflexivity|].
    exfalso. apply H. apply needsRefresh_false. exact E.
Qed.

Lemma X12_loadCache_freshness_witness :
  loadCache Scenario.hostDown 900999 Scenario.cfg Scenario.state1
  = (Some (latest Scenario.state1), Scenario.state1, [])
  /\ exists more,
       snd (loadCache Scenario.hostDown 901001 Scenario.cfg Scenario.state1)
       = EvFetchReleases 0 :: more.
Proof.
  split.
  - apply (proj1 (X12_loadCache_freshness Scenario.hostDown 900999 Scenario.cfg
                    Scenario.state1)).
    exists 1000. repeat split; [discriminate|vm_compute; discriminate].
  - apply (proj2 (X12_loadCache_freshness Scenario.hostDown 901001 Scenario.cfg
                    Scenario.state1)).
    intros [t [Ht [_ Hle]]]. vm_compute in Ht. inversion Ht; subst.
    vm_compute in Hle. apply Hle. reflexivity.
Defined.

Lemma needsRefresh_later (now now' : Z) (cfg : Config) (st : CacheState) :
  now <= now' ->
  needsRefresh now cfg st = true ->
  needsRefresh now' cfg st = true.
Proof.
  intros Hle. unfold needsRefresh, isOutdated.
  destruct (truthyTime (lastUpdate st)); cbn [negb orb andb]; [|reflexivity].
  destruct (lastUpdate st) as [t|]; [|discriminate].
  rewrite !Z.ltb_lt. lia.
Qed.

(** X13: a failure to get the release list is not remembered: when a
    call of [loadCache] that needs a refresh cannot fetch the release
    list within the retry budget, or cannot parse its body, the call is
    rejected, the state is the one before the call, and every call at
    that time or later starts again with the request for the release
    list. *)
Theorem X13_failed_load_is_retried
        (w w' : World) (now now' : Z) (cfg : Config) (st : CacheState) :
  now <= now' ->
  needsRefresh now cfg st = true ->
  fetched w = None \/ (exists r, fetched w = Some r /\ json r = None) ->
  loadCache w now cfg st = (None, st, fetchLog w)
  /\ exists more, snd (loadCache w' now' cfg st) = EvFetchReleases 0 :: more.
Proof.
  intros Hle Hneeds Hfail. split.
  - unfold loadCache. unfold needsRefresh in Hneeds. rewrite Hneeds.
    rewrite (RefreshFacts.refreshCache_no_list w cfg st Hfail). reflexivity.
  - apply loadCache_refreshes. apply (needsRefresh_later now now'); assumption.
Qed.

Lemma X13_failed_load_is_retried_witness :
  loadCache Scenario.hostDown 2000000 Scenario.cfg Scenario.state1
  = (None, Scenario.state1, fetchLog Scenario.hostDown)
  /\ exists more,
       snd (loadCache Scenario.host2 2000001 Scenario.cfg Scenario.state1)
       = EvFetchReleases 0 :: more.
Proof.
  apply (X13_failed_load_is_retried Scenario.hostDown Scenario.host2
           2000000 2000001 Scenario.cfg Scenario.state1).
  - discriminate.
  - vm_compute. reflexivity.
  - left. reflexivity.
Defined.

End LoadFacts.

(** ** The download and update handlers *)

Module RoutesFacts.

Import Cache CacheSpec MoreSpec Routes.
Local Open Scope Z_scope.
Local Open Scope list_scope.

(** What [loadCache] resolves to is the snapshot of the state it leaves,
    and that state is reachable when the one before the call is. *)
Lemma loadCache_result (w : World) (now : Z) (cfg : Config) (st : CacheState)
      (loaded : Snapshot) (st' : CacheState) (log : list Event) :
  reachable cfg st ->
  loadCache w now cfg st = (Some loaded, st', log) ->
  loaded = latest st' /\ reachable cfg st'.
Proof.
  intros Hr. unfold loadCache.
  destruct (negb (truthyTime (lastUpdate st)) || isOutdated now cfg st).
  - pose proof (reach_refresh cfg w st Hr) as Hr'. unfold stateOf in Hr'.
    destruct (refreshCache w cfg st) as [[[|] st1] log1]; cbn [fst snd] in Hr';
      intros H; inversion H; subst. split; [reflexivity|exact Hr'].
  - intros H. inversion H; subst. split; [reflexivity|exact Hr].
Qed.

(** A key the normalizer never produces is missing from the platform map
    of every reachable state. *)
Lemma lookup_unproduced (cfg : Config) (st : CacheState)
      (p : JsObj.t PlatformAsset) (k : string) :
  reachable cfg st ->
  platforms (latest st) = Some p ->
  ~ In k producedKeys ->
  Aliases.list_includes Aliases.objectPrototypeProps k = false ->
  lookupPlatform p k = Missing.
Proof.
  intros Hr Hp Hk Hproto. unfold lookupPlatform.
  destruct (RefreshFacts.reachable_settled cfg st Hr) as [Hwk _].
  unfold platformsOf in Hwk. rewrite Hp in Hwk.
  rewrite RefreshFacts.get_None_of_not_key, Hproto; [reflexivity|].
  intros Hin. apply Hk. apply (RefreshFacts.wellKeyed_keys_produced p k Hwk Hin).
Qed.

Ltac not_produced :=
  let H := fresh in
  intros H; vm_compute in H;
  repeat (destruct H as [H|H]; [discriminate|]); exact H.

(** X14: on every reachable state, the handler [download] can lead to a
    download only for a Mac user agent with the [update] parameter set:
    for any other request, a Windows user agent included, its reply is the
    404 message or the rejection of [loadCache], since the keys [dmg] and
    [exe] it then looks up are never keys of the platform map. *)
Theorem X14_download_mac_update_only
        (w : World) (now : Z) (cfg : Config) (rc : RouteConfig)
        (agent : Agent) (isUpdate : bool) (st : CacheState) :
  reachable cfg st ->
  isMac agent && isUpdate = false ->
  replyOf (download w now cfg rc agent isUpdate st)
  = SendText 404 "No download available for your platform!"
  \/ replyOf (download w now cfg rc agent isUpdate st) = Rejects.
Proof.
  intros Hr Hmu. unfold download, agentPlatform. rewrite Hmu.
  destruct (loadCache w now cfg st) as [[[loaded|] st'] log] eqn:El;
    [|right; reflexivity].
  destruct (loadCache_result w now cfg st loaded st' log Hr El) as [-> Hr'].
  left. unfold replyOf. cbn [fst].
  destruct (platforms (latest st')) as [p|] eqn:Ep.
  - destruct (isMac agent && negb isUpdate).
    + rewrite (lookup_unproduced cfg st' p "dmg" Hr' Ep); [reflexivity|not_produced|reflexivity].
    + destruct (isWindows agent); [|reflexivity].
      rewrite (lookup_unproduced cfg st' p "exe" Hr' Ep); [reflexivity|not_produced|reflexivity].
  - destruct (isMac agent && negb isUpdate); [reflexivity|].
    destruct (isWindows agent); reflexivity.
Qed.

Lemma X14_download_mac_update_only_witness :
  replyOf (download Scenario.host2 2000001 Scenario.cfg (mkRouteConfig None None)
                    (mkAgent false true) false Scenario.state2)
  = SendText 404 "No download available for your platform!"
  \/ replyOf (download Scenario.host2 2000001 Scenario.cfg (mkRouteConfig None None)
                       (mkAgent false true) false Scenario.state2)
     = Rejects.
Proof.
  apply (X14_download_mac_update_only Scenario.host2 2000001 Scenario.cfg
           (mkRouteConfig None None) (mkAgent false true) false Scenario.state2).
  - exact RefreshFacts.state2_reachable.
  - reflexivity.
Defined.

Lemma checkAlias_rewriteMac (isUpdate : bool) (param : string) :
  Aliases.checkAlias (rewriteMac isUpdate param) = Aliases.checkAlias param.
Proof.
  unfold rewriteMac.
  destruct (String.eqb param "mac") eqn:E1.
  - apply String.eqb_eq in E1. subst param.
    destruct isUpdate; vm_compute; reflexivity.
  - cbn [andb].
    destruct (String.eqb param "mac_arm64") eqn:E2; [|reflexivity].
    apply String.eqb_eq in E2. subst param.
    destruct isUpdate; vm_compute; reflexivity.
Qed.

(** X15: the [update] query parameter has no effect on
    [downloadPlatform]: the two rewritings it guards replace [mac] and
    [mac_arm64] by tokens that the alias resolver maps to the same keys. *)
Theorem X15_downloadPlatform_ignores_update
        (w : World) (now : Z) (cfg : Config) (rc : RouteConfig)
        (param : string) (st : CacheState) :
  downloadPlatform w now cfg rc param true st
  = downloadPlatform w now cfg rc param false st.
Proof.
  unfold downloadPlatform. rewrite !checkAlias_rewriteMac. reflexivity.
Qed.

(** X16: on every reachable state, a platform token that resolves to
    [exe], [exe_arm64] or [win32_arm64] is never served: [downloadPlatform]
    replies with the 404 message and [update], given a valid version, with
    204 (or the handler is rejected with [loadCache]), since the normalizer
    files Windows installers under [win32] only. *)
Theorem X16_exe_keys_never_served
        (valid : string -> bool) (compare : option string -> string -> option Z)
        (w : World) (now : Z) (cfg : Config) (rc : RouteConfig)
        (param version : string) (isUpdate : bool) (k : string) (st : CacheState) :
  reachable cfg st ->
  Aliases.checkAlias param = Some k ->
  In k ["exe"; "exe_arm64"; "win32_arm64"]%string ->
  valid version = true ->
  (replyOf (downloadPlatform w now cfg rc param isUpdate st)
   = SendText 404 "No download available for your platform"
   \/ replyOf (downloadPlatform w now cfg rc param isUpdate st) = Rejects)
  /\ (replyOf (update valid compare w now cfg rc param version st) = EndWith 204
      \/ replyOf (update valid compare w now cfg rc param version st) = Rejects).
Proof.
  intros Hr Hres Hk Hvalid.
  assert (~ In k producedKeys) as Hnp.
  { cbn in Hk. destruct Hk as [<-|[<-|[<-|[]]]]; not_produced. }
  assert (Aliases.list_includes Aliases.objectPrototypeProps k = false) as Hproto.
  { cbn in Hk. destruct Hk as [<-|[<-|[<-|[]]]]; reflexivity. }
  assert (falsyAlias (Some k) = false) as Hfalsy.
  { cbn in Hk. destruct Hk as [<-|[<-|[<-|[]]]]; reflexivity. }
  split.
  - unfold downloadPlatform. rewrite checkAlias_rewriteMac, Hres, Hfalsy.
    destruct (loadCache w now cfg st) as [[[loaded|] st'] log] eqn:El;
      [|right; reflexivity].
    destruct (loadCache_result w now cfg st loaded st' log Hr El) as [-> Hr'].
    left. unfold replyOf. cbn [fst].
    destruct (platforms (latest st')) as [p|] eqn:Ep; [|reflexivity].
    rewrite (lookup_unproduced cfg st' p k Hr' Ep Hnp Hproto). reflexivity.
  - unfold update. rewrite Hvalid, Hres, Hfalsy. cbn [negb].
    destruct (loadCache w now cfg st) as [[[loaded|] st'] log] eqn:El;
      [|right; reflexivity].
    destruct (loadCache_result w now cfg st loaded st' log Hr El) as [-> Hr'].
    left. unfold replyOf. cbn [fst].
    destruct (platforms (latest st')) as [p|] eqn:Ep; [|reflexivity].
    rewrite (lookup_unproduced cfg st' p k Hr' Ep Hnp Hproto). reflexivity.
Qed.

Lemma X16_exe_keys_never_served_witness :
  (replyOf (downloadPlatform Scenario.host2 2000001 Scenario.cfg
                             (mkRouteConfig None None) "exe" false Scenario.state2)
   = SendText 404 "No download available for your platform"
   \/ replyOf (downloadPlatform Scenario.host2 2000001 Scenario.cfg
                                (mkRouteConfig None None) "exe" false Scenario.state2)
      = Rejects)
  /\ (replyOf (update anyValid compareSame Scenario.host2 2000001 Scenario.cfg
                      (mkRouteConfig None None) "exe" "1.0.0" Scenario.state2)
      = EndWith 204
      \/ replyOf (update anyValid compareSame Scenario.host2 2000001 Scenario.cfg
                         (mkRouteConfig None None) "exe" "1.0.0" Scenario.state2)
         = Rejects).
Proof.
  apply (X16_exe_keys_never_served anyValid compareSame Scenario.host2 2000001
           Scenario.cfg (mkRouteConfig None None) "exe" "1.0.0" false "exe"
           Scenario.state2).
  - exact RefreshFacts.state2_reachable.
  - vm_compute. reflexivity.
  - cbn. left. reflexivity.
  - reflexivity.
Defined.

End RoutesFacts.

(** ** What a caching refresh leaves under [files], and where checksums
    come from *)

Module FilesFacts.

Import Cache CacheSpec MoreSpec.
Local Open Scope Z_scope.
Local Open Scope list_scope.

Lemma processAsset_releasesOf (w : World) (ls : LoopState) (asset : RawAsset) :
  releasesOf (ls_latest (processAsset w ls asset))
  = if releasesStored w asset
    then cacheReleaseList w (browser_download_url asset)
    else releasesOf (ls_latest ls).
Proof.
  unfold processAsset, releasesStored, releasesOf.
  destruct (String.eqb (name asset) "RELEASES"); cbn [andb].
  - destruct (cacheReleaseList w (browser_download_url asset)); cbn; [reflexivity|].
    unfold ensureFiles. destruct (files (ls_latest ls)); reflexivity.
  - destruct (JsString.endsWith ".yml" (name asset)).
    + destruct (fetchText w (browser_download_url asset)); reflexivity.
    + destruct (Platform.checkPlatform (name asset)); reflexivity.
Qed.

Lemma processAssets_releasesOf (w : World) (l : list RawAsset) (ls : LoopState) :
  releasesOf (ls_latest (processAssets w ls l))
  = match lastReleases w l with
    | Some asset => cacheReleaseList w (browser_download_url asset)
    | None => releasesOf (ls_latest ls)
    end.
Proof.
  induction l as [|asset l IH] using rev_ind; [reflexivity|].
  unfold processAssets, lastReleases in *.
  rewrite fold_left_app, rev_app_distr. cbn [fold_left rev app find].
  rewrite processAsset_releasesOf.
  destruct (releasesStored w asset); [reflexivity|exact IH].
Qed.

Lemma processAsset_yaml (w : World) (ls : LoopState) (asset : RawAsset) (n : string) :
  JsObj.get n (ls_yaml (processAsset w ls asset))
  = if yamlStored w n asset
    then fetchText w (browser_download_url asset)
    else JsObj.get n (ls_yaml ls).
Proof.
  unfold processAsset, yamlStored.
  destruct (String.eqb (name asset) "RELEASES"); cbn [negb andb].
  - destruct (cacheReleaseList w (browser_download_url asset)); reflexivity.
  - destruct (JsString.endsWith ".yml" (name asset)); cbn [andb].
    + destruct (fetchText w (browser_download_url asset)) as [content|];
        cbn [isSome ls_yaml]; [|rewrite andb_false_r; reflexivity].
      rewrite andb_true_r.
      destruct (String.eqb (name asset) n) eqn:E.
      * apply String.eqb_eq in E. subst n. apply AssetFacts.get_set_same.
      * apply AssetFacts.get_set_other. intros ->.
        rewrite String.eqb_refl in E. discriminate.
    + destruct (Platform.checkPlatform (name asset)); reflexivity.
Qed.

Lemma processAssets_yaml (w : World) (l : list RawAsset) (ls : LoopState) (n : string) :
  JsObj.get n (ls_yaml (processAssets w ls l))
  = match lastYaml w n l with
    | Some asset => fetchText w (browser_download_url asset)
    | None => JsObj.get n (ls_yaml ls)
    end.
Proof.
  induction l as [|asset l IH] using rev_ind; [reflexivity|].
  unfold processAssets, lastYaml in *.
  rewrite fold_left_app, rev_app_distr. cbn [fold_left rev app find].
  rewrite processAsset_yaml.
  destruct (yamlStored w n asset); [reflexivity|exact IH].
Qed.

Lemma applyManifests_files (w : World) (ls : LoopState) :
  releasesOf (fst (applyManifests w ls)) = releasesOf (ls_latest ls)
  /\ yamlFilesOf (fst (applyManifests w ls))
     = match ls_yaml ls with
       | [] => yamlFilesOf (ls_latest ls)
       | _ :: _ => Some (ls_yaml ls)
       end.
Proof.
  unfold applyManifests, releasesOf, yamlFilesOf, ensureFiles.
  destruct (ls_yaml ls); [split; reflexivity|].
  cbn. destruct (files (ls_latest ls)); split; reflexivity.
Qed.

Lemma find_Some_yamlStored (w : World) (n : string) (l : list RawAsset) (a : RawAsset) :
  lastYaml w n l = Some a -> fetchText w (browser_download_url a) <> None.
Proof.
  unfold lastYaml. intros H. apply find_some in H as [_ H].
  unfold yamlStored in H. apply andb_true_iff in H as [_ H].
  destruct (fetchText w (browser_download_url a)); [discriminate|discriminate].
Qed.

(** X17: after a refresh that caches a new version, [files.RELEASES] is
    the installer list the last successfully processed [RELEASES] asset
    gave, and is what it was before the refresh when there is none; and
    for every manifest name, [files.yamlFiles] holds under that name the
    text fetched for the last asset of that name whose fetch succeeded. *)
Theorem X17_files_after_refresh
        (w : World) (cfg : Config) (st : CacheState)
        (response : Response) (data : list Release)
        (release : Release) (l : list RawAsset) :
  fetched w = Some response ->
  json response = Some (ReleaseArray data) ->
  selectRelease cfg data = Some release ->
  assets release = Some l ->
  version (latest st) <> Some (tag_name release) ->
  releasesOf (latest (stateOf (refreshCache w cfg st)))
  = match lastReleases w l with
    | Some asset => cacheReleaseList w (browser_download_url asset)
    | None => releasesOf (latest st)
    end
  /\ forall n asset,
       lastYaml w n l = Some asset ->
       exists yamls,
         yamlFilesOf (latest (stateOf (refreshCache w cfg st))) = Some yamls
         /\ JsObj.get n yamls = fetchText w (browser_download_url asset).
Proof.
  intros Hf Hj Hsel Hassets Hver.
  rewrite (CacheFacts.refreshCache_new_version w cfg st _ _ _ _ Hf Hj Hsel Hassets Hver).
  unfold cacheRelease.
  match goal with
  | |- context [applyManifests w (processAssets w ?ls0 l)] =>
      pose proof (applyManifests_files w (processAssets w ls0 l)) as [Hrel Hyaml];
      pose proof (processAssets_releasesOf w l ls0) as Hrel0;
      pose proof (fun n => processAssets_yaml w l ls0 n) as Hyaml0;
      destruct (applyManifests w (processAssets w ls0 l)) as [s log']
  end.
  cbn [fst stateOf snd latest ls_latest ls_yaml] in *. split.
  - rewrite Hrel, Hrel0. reflexivity.
  - intros n asset Hlast. specialize (Hyaml0 n). rewrite Hlast in Hyaml0.
    pose proof (find_Some_yamlStored w n l asset Hlast) as Hne.
    match type of Hyaml0 with
    | JsObj.get n ?y = _ => exists y; destruct y as [|y1 ys] eqn:Ey
    end.
    + cbn in Hyaml0. rewrite <- Hyaml0 in Hne. contradiction.
    + split; [exact Hyaml|exact Hyaml0].
Qed.

Lemma X17_files_after_refresh_witness :
  releasesOf (latest Scenario.state2)
  = match lastReleases Scenario.host2 [Scenario.dmg2; Scenario.macYml] with
    | Some asset => cacheReleaseList Scenario.host2 (browser_download_url asset)
    | None => releasesOf (latest Scenario.state1)
    end
  /\ forall n asset,
       lastYaml Scenario.host2 n [Scenario.dmg2; Scenario.macYml] = Some asset ->
       exists yamls,
         yamlFilesOf (latest Scenario.state2) = Some yamls
         /\ JsObj.get n yamls = fetchText Scenario.host2 (browser_download_url asset).
Proof.
  apply (X17_files_after_refresh Scenario.host2 Scenario.cfg Scenario.state1
           (mkResponse 200 (Some (ReleaseArray [Scenario.release2; Scenario.release1])))
           [Scenario.release2; Scenario.release1]
           Scenario.release2 [Scenario.dmg2; Scenario.macYml]).
  - reflexivity.
  - reflexivity.
  - reflexivity.
  - reflexivity.
  - vm_compute. discriminate.
Defined.

End FilesFacts.

(** ** Where checksums come from *)

Module ChecksumFacts.

Import Cache CacheSpec MoreSpec.
Local Open Scope Z_scope.
Local Open Scope list_scope.

Lemma processAsset_unchecked (w : World) (ls : LoopState) (asset : RawAsset) :
  unchecked (platformsOf (ls_latest ls)) ->
  unchecked (platformsOf (ls_latest (processAsset w ls asset))).
Proof.
  intros H. unfold processAsset.
  destruct (String.eqb (name asset) "RELEASES").
  - destruct (cacheReleaseList w (browser_download_url asset)); exact H.
  - destruct (JsString.endsWith ".yml" (name asset)).
    + destruct (fetchText w (browser_download_url asset)); exact H.
    + destruct (Platform.checkPlatform (name asset)) as [k|]; [|exact H].
      cbn [ls_latest platformsOf setPlatforms platforms].
      intros key a Hin. apply JsObjFacts.In_set in Hin as [[_ ->]|Hin].
      * split; reflexivity.
      * exact (H key a Hin).
Qed.

Lemma processAssets_unchecked (w : World) (l : list RawAsset) (ls : LoopState) :
  unchecked (platformsOf (ls_latest ls)) ->
  unchecked (platformsOf (ls_latest (processAssets w ls l))).
Proof.
  revert ls. induction l as [|asset rest IH]; intros ls H; [exact H|].
  cbn [processAssets fold_left]. apply IH. apply processAsset_unchecked. exact H.
Qed.

Lemma unchecked_sourced (w : World) (yamls : JsObj.t string)
      (p : JsObj.t PlatformAsset) :
  unchecked p -> sourced w yamls p.
Proof.
  intros H key a Hin. destruct (H key a Hin) as [Hs Hb].
  split; intros x Hx; congruence.
Qed.

Lemma attachTo_sourced (w : World) (yamls : JsObj.t string) (k : ManifestKind)
      (e : ManifestEntry) (f : string) (p : JsObj.t PlatformAsset) :
  In e (manifestEntries w yamls k) ->
  e_url e = Some f ->
  sourced w yamls p ->
  sourced w yamls (attachTo k e f p).
Proof.
  intros He Hurl. induction p as [|[k0 d] rest IH]; intros Hp; [exact Hp|].
  assert (sourced w yamls rest) as Hrest.
  { intros key a Hin. apply (Hp key a). right. exact Hin. }
  cbn [attachTo]. destruct (String.eqb (pa_name d) f) eqn:En.
  - apply String.eqb_eq in En.
    intros key a [Hin|Hin]; [|exact (Hrest key a Hin)].
    inversion Hin; subst key a. cbn [attachChecksum pa_sha512 pa_blockMapSize pa_name].
    split.
    + intros s Hs. exists k, e. rewrite En. repeat split; assumption.
    + intros b Hb. destruct k.
      * destruct (Hp k0 d (or_introl eq_refl)) as [_ Hd]. exact (Hd b Hb).
      * exists e. rewrite En. repeat split; assumption.
      * destruct (Hp k0 d (or_introl eq_refl)) as [_ Hd]. exact (Hd b Hb).
  - intros key a [Hin|Hin].
    + apply (Hp key a). left. exact Hin.
    + exact (IH Hrest key a Hin).
Qed.

Lemma applyItems_sourced (w : World) (yamls : JsObj.t string) (k : ManifestKind)
      (items : list ManifestItem) (p : JsObj.t PlatformAsset) :
  (forall e, In e (entriesOfItems items) -> In e (manifestEntries w yamls k)) ->
  sourced w yamls p ->
  sourced w yamls (applyItems k items p).
Proof.
  revert p. induction items as [|[|e] rest IH]; intros p Hsub Hp; cbn [applyItems];
    try exact Hp.
  apply IH.
  - intros e' He'. apply Hsub. right. exact He'.
  - unfold applyEntry. destruct (e_url e) as [f|] eqn:Eu; [|exact Hp].
    destruct (JsString.truthy f); [|exact Hp].
    apply attachTo_sourced; [apply Hsub; left; reflexivity|exact Eu|exact Hp].
Qed.

Lemma applyManifest_sourced (w : World) (yamls : JsObj.t string) (k : ManifestKind)
      (pl : JsObj.t PlatformAsset * list Event) :
  sourced w yamls (fst pl) ->
  sourced w yamls (fst (applyManifest w k yamls pl)).
Proof.
  destruct pl as [p log]. cbn [fst]. intros Hp.
  pose proof (applyItems_sourced w yamls k) as Hitems.
  unfold applyManifest, manifestEntries in *.
  destruct (JsObj.get (manifestName k) yamls) as [content|]; [|exact Hp].
  destruct (JsString.truthy content); [|exact Hp].
  destruct (yamlLoad w content) as [| |items]; cbn [fst]; try exact Hp.
  apply Hitems; [intros e He; exact He|exact Hp].
Qed.

Lemma applyManifests_sourced (w : World) (ls : LoopState) :
  unchecked (platformsOf (ls_latest ls)) ->
  match ls_yaml ls with
  | [] => unchecked (platformsOf (fst (applyManifests w ls)))
  | _ :: _ => sourced w (ls_yaml ls) (platformsOf (fst (applyManifests w ls)))
  end.
Proof.
  intros H. unfold applyManifests.
  destruct (ls_yaml ls) as [|y ys] eqn:Ey; [exact H|].
  cbn [fst platformsOf setPlatforms platforms].
  repeat apply applyManifest_sourced.
  cbn [fst]. apply unchecked_sourced. exact H.
Qed.

(** X18: after a refresh that caches a new version, every checksum in the
    platform map is the [sha512] of an entry of one of the three manifests
    retained in the snapshot whose [url] is the file name of the asset
    carrying it, and every block-map size is the one of such an entry of
    the Linux manifest. *)
Theorem X18_checksums_are_sourced
        (w : World) (cfg : Config) (st : CacheState)
        (response : Response) (data : list Release)
        (release : Release) (l : list RawAsset)
        (key : string) (a : PlatformAsset) :
  fetched w = Some response ->
  json response = Some (ReleaseArray data) ->
  selectRelease cfg data = Some release ->
  assets release = Some l ->
  version (latest st) <> Some (tag_name release) ->
  JsObj.get key (platformsOf (latest (stateOf (refreshCache w cfg st)))) = Some a ->
  (forall s, pa_sha512 a = Some s ->
     exists yamls kind e,
       yamlFilesOf (latest (stateOf (refreshCache w cfg st))) = Some yamls
       /\ In e (manifestEntries w yamls kind)
       /\ e_url e = Some (pa_name a) /\ e_sha512 e = Some s)
  /\ (forall b, pa_blockMapSize a = Some b ->
        exists yamls e,
          yamlFilesOf (latest (stateOf (refreshCache w cfg st))) = Some yamls
          /\ In e (manifestEntries w yamls LinuxManifest)
          /\ e_url e = Some (pa_name a) /\ e_blockMapSize e = Some b).
Proof.
  intros Hf Hj Hsel Hassets Hver.
  rewrite (CacheFacts.refreshCache_new_version w cfg st _ _ _ _ Hf Hj Hsel Hassets Hver).
  unfold cacheRelease.
  match goal with
  | |- context [applyManifests w (processAssets w ?ls0 l)] =>
      pose proof (applyManifests_sourced w (processAssets w ls0 l)
                    (processAssets_unchecked w l ls0 (fun _ _ H => match H with end)))
        as Hsrc;
      pose proof (FilesFacts.applyManifests_files w (processAssets w ls0 l))
        as [_ Hyaml];
      destruct (applyManifests w (processAssets w ls0 l)) as [s log']
  end.
  cbn [fst stateOf snd latest] in *.
  intros Hget. apply JsObjFacts.get_In in Hget.
  match type of Hyaml with
  | context [match ?y with [] => _ | _ :: _ => _ end] => destruct y as [|y1 ys] eqn:Ey
  end.
  - destruct (Hsrc key a Hget) as [Hs Hb]. split; intros x Hx; congruence.
  - destruct (Hsrc key a Hget) as [Hs Hb]. split.
    + intros x Hx. destruct (Hs x Hx) as [kind [e [H1 [H2 H3]]]].
      exists (y1 :: ys), kind, e. repeat split; assumption.
    + intros b Hx. destruct (Hb b Hx) as [e [H1 [H2 H3]]].
      exists (y1 :: ys), e. repeat split; assumption.
Qed.

Lemma X18_checksums_are_sourced_witness :
  (forall s,
      pa_sha512 (attachChecksum MacManifest Scenario.macEntry
                                (newPlatformAsset Scenario.dmg2)) = Some s ->
      exists yamls kind e,
        yamlFilesOf (latest (stateOf (refreshCache Scenario.host2 Scenario.cfg
                                                   Scenario.state1))) = Some yamls
        /\ In e (manifestEntries Scenario.host2 yamls kind)
        /\ e_url e = Some (pa_name (attachChecksum MacManifest Scenario.macEntry
                                                   (newPlatformAsset Scenario.dmg2)))
        /\ e_sha512 e = Some s)
  /\ (forall b,
        pa_blockMapSize (attachChecksum MacManifest Scenario.macEntry
                                        (newPlatformAsset Scenario.dmg2)) = Some b ->
        exists yamls e,
          yamlFilesOf (latest (stateOf (refreshCache Scenario.host2 Scenario.cfg
                                                     Scenario.state1))) = Some yamls
          /\ In e (manifestEntries Scenario.host2 yamls LinuxManifest)
          /\ e_url e = Some (pa_name (attachChecksum MacManifest Scenario.macEntry
                                                     (newPlatformAsset Scenario.dmg2)))
          /\ e_blockMapSize e = Some b).
Proof.
  apply (X18_checksums_are_sourced Scenario.host2 Scenario.cfg Scenario.state1
           (mkResponse 200 (Some (ReleaseArray [Scenario.release2; Scenario.release1])))
           [Scenario.release2; Scenario.release1]
           Scenario.release2 [Scenario.dmg2; Scenario.macYml] "darwin").
  - reflexivity.
  - reflexivity.
  - reflexivity.
  - reflexivity.
  - vm_compute. discriminate.
  - vm_compute. reflexivity.
Defined.

End ChecksumFacts.

(** ** The network work of a caching refresh *)

Module TrafficFacts.

Import Cache CacheSpec MoreSpec.
Local Open Scope Z_scope.
Local Open Scope list_scope.

Lemma processAsset_events (w : World) (ls : LoopState) (asset : RawAsset) :
  ls_log (processAsset w ls asset) = ls_log ls ++ assetEvents asset.
Proof.
  unfold processAsset, assetEvents.
  destruct (String.eqb (name asset) "RELEASES").
  - destruct (cacheReleaseList w (browser_download_url asset)); reflexivity.
  - destruct (JsString.endsWith ".yml" (name asset)).
    + destruct (fetchText w (browser_download_url asset)); reflexivity.
    + destruct (Platform.checkPlatform (name asset)); rewrite app_nil_r; reflexivity.
Qed.

Lemma processAssets_events (w : World) (l : list RawAsset) (ls : LoopState) :
  ls_log (processAssets w ls l) = ls_log ls ++ flat_map assetEvents l.
Proof.
  revert ls. induction l as [|asset rest IH]; intros ls.
  - cbn. rewrite app_nil_r. reflexivity.
  - cbn [processAssets fold_left flat_map].
    unfold processAssets in IH. rewrite IH, processAsset_events, app_assoc. reflexivity.
Qed.

Lemma applyManifest_events (w : World) (k : ManifestKind) (yamls : JsObj.t string)
      (pl : JsObj.t PlatformAsset * list Event) :
  exists loads,
    snd (applyManifest w k yamls pl) = snd pl ++ loads
    /\ forallb isYamlLoad loads = true
    /\ (List.length loads <= 1)%nat.
Proof.
  destruct pl as [p log]. unfold applyManifest. cbn [snd].
  destruct (JsObj.get (manifestName k) yamls) as [content|].
  - destruct (JsString.truthy content).
    + exists [EvYamlLoad k].
      destruct (yamlLoad w content); repeat split; cbn; lia.
    + exists []. rewrite app_nil_r. repeat split. cbn. lia.
  - exists []. rewrite app_nil_r. repeat split. cbn. lia.
Qed.

Lemma applyManifests_events (w : World) (ls : LoopState) :
  exists loads,
    snd (applyManifests w ls) = ls_log ls ++ loads
    /\ forallb isYamlLoad loads = true
    /\ (List.length loads <= 3)%nat.
Proof.
  unfold applyManifests. destruct (ls_yaml ls) as [|y ys].
  - exists []. rewrite app_nil_r. repeat split. cbn. lia.
  - cbn [snd].
    match goal with
    | |- context [applyManifest w WinManifest ?y (applyManifest w LinuxManifest ?y
                    (applyManifest w MacManifest ?y ?pl0))] =>
        destruct (applyManifest_events w MacManifest y pl0) as [m1 [H1 [F1 L1]]];
        destruct (applyManifest_events w LinuxManifest y
                    (applyManifest w MacManifest y pl0)) as [m2 [H2 [F2 L2]]];
        destruct (applyManifest_events w WinManifest y
                    (applyManifest w LinuxManifest y
                       (applyManifest w MacManifest y pl0))) as [m3 [H3 [F3 L3]]]
    end.
    exists (m1 ++ m2 ++ m3). split; [|split].
    + rewrite H3, H2, H1. cbn [snd]. rewrite !app_assoc. reflexivity.
    + rewrite !forallb_app, F1, F2, F3. reflexivity.
    + rewrite !length_app. lia.
Qed.

(** X19: a refresh that caches a new version does, after the requests
    for the release list and in listing order, one call of
    [cacheReleaseList] per [RELEASES] asset and one request per [.yml]
    asset, and then at most three calls of [yaml.load]; it does nothing
    for a download asset, which is never fetched. *)
Theorem X19_refresh_traffic
        (w : World) (cfg : Config) (st : CacheState)
        (response : Response) (data : list Release)
        (release : Release) (l : list RawAsset) :
  fetched w = Some response ->
  json response = Some (ReleaseArray data) ->
  selectRelease cfg data = Some release ->
  assets release = Some l ->
  version (latest st) <> Some (tag_name release) ->
  exists loads,
    snd (refreshCache w cfg st) = fetchLog w ++ flat_map assetEvents l ++ loads
    /\ forallb isYamlLoad loads = true
    /\ (List.length loads <= 3)%nat.
Proof.
  intros Hf Hj Hsel Hassets Hver.
  rewrite (CacheFacts.refreshCache_new_version w cfg st _ _ _ _ Hf Hj Hsel Hassets Hver).
  unfold cacheRelease.
  match goal with
  | |- context [applyManifests w (processAssets w ?ls0 l)] =>
      destruct (applyManifests_events w (processAssets w ls0 l)) as [loads [H [F L]]];
      pose proof (processAssets_events w l ls0) as H0;
      destruct (applyManifests w (processAssets w ls0 l)) as [s log']
  end.
  cbn [snd ls_log] in *. exists loads. split; [|split; assumption].
  rewrite H, H0, app_assoc. reflexivity.
Qed.

Lemma X19_refresh_traffic_witness :
  exists loads,
    snd (refreshCache Scenario.host4 Scenario.cfg Scenario.state1)
    = fetchLog Scenario.host4
      ++ flat_map assetEvents [Scenario.dmg1; Scenario.macYml; Scenario.dmg2] ++ loads
    /\ forallb isYamlLoad loads = true
    /\ (List.length loads <= 3)%nat.
Proof.
  apply (X19_refresh_traffic Scenario.host4 Scenario.cfg Scenario.state1
           (mkResponse 200 (Some (ReleaseArray [Scenario.release4])))
           [Scenario.release4] Scenario.release4
           [Scenario.dmg1; Scenario.macYml; Scenario.dmg2]).
  - reflexivity.
  - reflexivity.
  - reflexivity.
  - reflexivity.
  - vm_compute. discriminate.
Defined.

Example host4_traffic :
  snd (refreshCache Scenario.host4 Scenario.cfg Scenario.state1)
  = [ EvFetchReleases 0;
      EvFetchText "https://dl.example/v2/latest-mac.yml";
      EvYamlLoad MacManifest ].
Proof. vm_compute. reflexivity. Qed.

End TrafficFacts.
